(** * survivAI: the basic knowledge-database generator

    A shallow embedding of [Scripts/generate_embeddings_basic.py]: the JSON
    loader, the SQLite database builder and the top-level procedure, with
    the properties of the specification proved about them.

    Layout: Python values and the operations the script applies to them;
    the loader; the part of SQLite the script drives (dynamic values,
    column affinity, constraints, triggers, implicit transactions); the
    builder; [main]; then the theorems. *)

From Stdlib Require Import List String Ascii ZArith Lia Bool.
From Stdlib Require Import Decimal DecimalString.
Import ListNotations.
Local Open Scope string_scope.
Local Open Scope list_scope.
Set Warnings "-register-all".

(* ===================================================================== *)
(** ** Python values *)
(* ===================================================================== *)

(** What [json.load] can return.  A [str] is a string with one [ascii]
    per character; a [str] with other characters, and so one with a lone
    surrogate, which [json.load] returns for an escape such as [\ud800]
    and which the [sqlite3] module refuses to bind, is outside the
    model.  A dict is an association list in insertion order;
    lookup takes the first binding of a key.  A float is only ever stored,
    never computed with: its payload is the decimal text SQLite renders it
    to under TEXT affinity, and the one float SQLite does not store, NaN,
    stands apart. *)
Inductive pyval : Type :=
| PNone
| PBool (b : bool)
| PInt (z : Z)
| PFloat (text : string)
| PNaN
| PStr (s : string)
| PList (l : list pyval)
| PDict (d : list (string * pyval)).

(** The two classes of storage-engine constraint the schema declares. *)
Inductive constraint : Type :=
| UniqueFailed
| NotNullFailed (column : string).

(** Exceptions the script can meet.  All of them derive from [Exception],
    so the loader's [except Exception] catches each one. *)
Inductive exn : Type :=
| OSError
| JSONDecodeError
| AttributeError
| TypeError
| KeyError (key : string)
| OverflowError
| ProgrammingError
| OperationalError
| IntegrityError (c : constraint).

(** A computation that returns or raises. *)
Inductive result (A : Type) : Type :=
| Ok (a : A)
| Raise (e : exn).
Arguments Ok {A} a.
Arguments Raise {A} e.

Definition bind {A B} (r : result A) (k : A -> result B) : result B :=
  match r with
  | Ok a => k a
  | Raise e => Raise e
  end.

Notation "x <- c ;; k" := (bind c (fun x => k))
  (at level 61, c at next level, right associativity).

(** *** Dict primitives *)

Fixpoint dict_get (k : string) (d : list (string * pyval)) : option pyval :=
  match d with
  | [] => None
  | (k', v) :: d' => if String.eqb k k' then Some v else dict_get k d'
  end.

(** [d[k] = v]: an existing key keeps its position and takes the new
    value, a new key goes to the end. *)
Fixpoint dict_set (k : string) (v : pyval) (d : list (string * pyval))
  : list (string * pyval) :=
  match d with
  | [] => [(k, v)]
  | (k', v') :: d' =>
      if String.eqb k k' then (k', v) :: d' else (k', v') :: dict_set k v d'
  end.

(** *** The operations of the script on dynamically typed values *)

(** [data.get(key, default)]: only a dict has [.get]. *)
Definition py_get (data : pyval) (key : string) (default : pyval)
  : result pyval :=
  match data with
  | PDict d =>
      match dict_get key d with
      | Some v => Ok v
      | None => Ok default
      end
  | _ => Raise AttributeError
  end.

(** [x[key]] with a string key. *)
Definition py_getitem (x : pyval) (key : string) : result pyval :=
  match x with
  | PDict d =>
      match dict_get key d with
      | Some v => Ok v
      | None => Raise (KeyError key)
      end
  | _ => Raise TypeError
  end.

(** [x[key] = v] with a string key. *)
Definition py_setitem (x : pyval) (key : string) (v : pyval)
  : result pyval :=
  match x with
  | PDict d => Ok (PDict (dict_set key v d))
  | _ => Raise TypeError
  end.

Fixpoint chars (s : string) : list string :=
  match s with
  | EmptyString => []
  | String c s' => String c EmptyString :: chars s'
  end.

(** What a [for] loop (or [str.join]) draws from a value: the elements of
    a list, the keys of a dict, the characters of a string. *)
Definition py_iter (x : pyval) : result (list pyval) :=
  match x with
  | PList l => Ok l
  | PDict d => Ok (map (fun kv => PStr (fst kv)) d)
  | PStr s => Ok (map PStr (chars s))
  | _ => Raise TypeError
  end.

(** [sep.join(items)] on strings. *)
Fixpoint join (sep : string) (items : list string) : string :=
  match items with
  | [] => EmptyString
  | [s] => s
  | s :: rest => s ++ sep ++ join sep rest
  end.

Fixpoint all_str (items : list pyval) : result (list string) :=
  match items with
  | [] => Ok []
  | PStr s :: rest => ss <- all_str rest ;; Ok (s :: ss)
  | _ :: _ => Raise TypeError
  end.

(** [sep.join(x)] on a value: every element drawn must be a [str]. *)
Definition py_join (sep : string) (x : pyval) : result string :=
  items <- py_iter x ;;
  ss <- all_str items ;;
  Ok (join sep ss).

(** [str(n)] for a length. *)
Definition str_of_nat (n : nat) : string :=
  NilZero.string_of_uint (Nat.to_uint n).

(* ===================================================================== *)
(** ** The loader *)
(* ===================================================================== *)

(** One entry of [knowledge_dir.glob("*.json")]: its name and what
    [open] followed by [json.load] makes of it. *)
Inductive file_content : Type :=
| LoadError (e : exn)
| Parsed (data : pyval).

Record json_file : Type := mk_file {
  file_name : string;
  content : file_content
}.

(** What the loader prints. *)
Inductive log_line : Type :=
| WarnNoJsonFiles
| Loading (name : string)
| Loaded (count : nat) (category : pyval)
| ErrorLoading (name : string) (e : exn).

(** The inner [for scenario in scenarios] loop.  A scenario appended
    before a later element raises stays in [all_scenarios]. *)
Fixpoint tag_scenarios (category : pyval) (scenarios : list pyval)
         (all_scenarios : list pyval) : list pyval * option exn :=
  match scenarios with
  | [] => (all_scenarios, None)
  | scenario :: rest =>
      match py_setitem scenario "category" category with
      | Raise e => (all_scenarios, Some e)
      | Ok scenario' =>
          tag_scenarios category rest (all_scenarios ++ [scenario'])
      end
  end.

(** The body of the [try], up to the first exception. *)
Definition load_parsed (data : pyval) (all_scenarios : list pyval)
  : list pyval * result (nat * pyval) :=
  match py_get data "category" (PStr "unknown") with
  | Raise e => (all_scenarios, Raise e)
  | Ok category =>
      match py_get data "scenarios" (PList []) with
      | Raise e => (all_scenarios, Raise e)
      | Ok scenarios =>
          match py_iter scenarios with
          | Raise e => (all_scenarios, Raise e)
          | Ok items =>
              match tag_scenarios category items all_scenarios with
              | (all', Some e) => (all', Raise e)
              | (all', None) => (all', Ok (List.length items, category))
              end
          end
      end
  end.

(** One iteration of [for json_file in json_files]. *)
Definition load_file (f : json_file) (st : list pyval * list log_line)
  : list pyval * list log_line :=
  let '(all_scenarios, out) := st in
  let out := out ++ [Loading (file_name f)] in
  match content f with
  | LoadError e => (all_scenarios, out ++ [ErrorLoading (file_name f) e])
  | Parsed data =>
      match load_parsed data all_scenarios with
      | (all', Ok (n, category)) => (all', out ++ [Loaded n category])
      | (all', Raise e) => (all', out ++ [ErrorLoading (file_name f) e])
      end
  end.

Definition load_files (json_files : list json_file)
           (st : list pyval * list log_line) : list pyval * list log_line :=
  fold_left (fun st f => load_file f st) json_files st.

Definition load_knowledge_files (json_files : list json_file)
  : list pyval * list log_line :=
  match json_files with
  | [] => ([], [WarnNoJsonFiles])
  | _ => load_files json_files ([], [])
  end.

(* ===================================================================== *)
(** ** The storage engine, as far as the script drives it *)
(* ===================================================================== *)

(** *** Values *)

(** SQLite's dynamically typed values.  JSON yields no byte strings, so
    no BLOB value is ever bound; a REAL carries its text rendering. *)
Inductive sqlval : Type :=
| SNull
| SInteger (z : Z)
| SReal (text : string)
| SText (s : string).

Definition sqlval_eqb (a b : sqlval) : bool :=
  match a, b with
  | SNull, SNull => true
  | SInteger x, SInteger y => Z.eqb x y
  | SReal x, SReal y => String.eqb x y
  | SText x, SText y => String.eqb x y
  | _, _ => false
  end.

Definition int64_min : Z := - 2 ^ 63.
Definition int64_max : Z := 2 ^ 63 - 1.

(** How the [sqlite3] module binds a Python value to a [?] placeholder:
    [None], [int] (and so [bool]), [float] and [str] are supported, a list
    or a dict is not, an [int] must fit 64 bits, and NaN is bound as
    NULL.  Every [str] of the model can be encoded and is bound as
    text. *)
Definition adapt (v : pyval) : result sqlval :=
  match v with
  | PNone => Ok SNull
  | PBool b => Ok (SInteger (if b then 1 else 0))
  | PInt z =>
      if (int64_min <=? z)%Z && (z <=? int64_max)%Z
      then Ok (SInteger z) else Raise OverflowError
  | PFloat text => Ok (SReal text)
  | PNaN => Ok SNull
  | PStr s => Ok (SText s)
  | PList _ => Raise ProgrammingError
  | PDict _ => Raise ProgrammingError
  end.

Definition text_of_Z (z : Z) : string := NilZero.string_of_int (Z.to_int z).

(** A column declared TEXT stores a numeric value as its text. *)
Definition text_affinity (v : sqlval) : sqlval :=
  match v with
  | SInteger z => SText (text_of_Z z)
  | SReal text => SText text
  | _ => v
  end.

(** *** Tables *)

(** A row of [knowledge], with the rowid SQLite gives it. *)
Record krow : Type := mk_krow {
  k_rowid : Z;
  k_id : sqlval;
  k_category : sqlval;
  k_keywords : sqlval;
  k_context : sqlval;
  k_priority : sqlval;
  k_embedding : sqlval
}.

(** An entry of the index of [knowledge_fts]: the values of the four
    columns as they were indexed, under a rowid.  The table is declared
    with [content=knowledge] (lines 72-73): it stores no rows of its own,
    a statement on it reads its rows from [knowledge], and only the index
    is kept by the table.  An entry stands for the tokens indexed from its
    values. *)
Record ftsrow : Type := mk_ftsrow {
  f_rowid : Z;
  f_id : sqlval;
  f_category : sqlval;
  f_keywords : sqlval;
  f_context : sqlval
}.

Definition ftsrow_eqb (a b : ftsrow) : bool :=
  Z.eqb (f_rowid a) (f_rowid b)
  && sqlval_eqb (f_id a) (f_id b)
  && sqlval_eqb (f_category a) (f_category b)
  && sqlval_eqb (f_keywords a) (f_keywords b)
  && sqlval_eqb (f_context a) (f_context b).

Inductive trigger : Type :=
| knowledge_ai
| knowledge_ad
| knowledge_au.

Definition trigger_eqb (a b : trigger) : bool :=
  match a, b with
  | knowledge_ai, knowledge_ai => true
  | knowledge_ad, knowledge_ad => true
  | knowledge_au, knowledge_au => true
  | _, _ => false
  end.

(** The contents of a database file: each table is absent ([None]) until
    its CREATE statement. *)
Record db : Type := mk_db {
  knowledge : option (list krow);
  knowledge_fts : option (list ftsrow);
  triggers : list trigger;
  indexes : list string;
  metadata : option (list (string * string))
}.

Definition empty_db : db := mk_db None None [] [] None.

Definition set_knowledge (rows : list krow) (d : db) : db :=
  mk_db (Some rows) (knowledge_fts d) (triggers d) (indexes d) (metadata d).

Definition set_knowledge_fts (rows : list ftsrow) (d : db) : db :=
  mk_db (knowledge d) (Some rows) (triggers d) (indexes d) (metadata d).

Definition set_metadata (rows : list (string * string)) (d : db) : db :=
  mk_db (knowledge d) (knowledge_fts d) (triggers d) (indexes d) (Some rows).

Definition has_trigger (t : trigger) (d : db) : bool :=
  existsb (trigger_eqb t) (triggers d).

(** *** Schema statements (lines 54-104 and 125-130) *)

Definition create_table_knowledge (d : db) : result db :=
  match knowledge d with
  | Some _ => Raise OperationalError
  | None => Ok (set_knowledge [] d)
  end.

Definition create_virtual_table_knowledge_fts (d : db) : result db :=
  match knowledge_fts d with
  | Some _ => Raise OperationalError
  | None => Ok (set_knowledge_fts [] d)
  end.

(** A trigger needs its table and a fresh name. *)
Definition create_trigger (t : trigger) (d : db) : result db :=
  match knowledge d with
  | None => Raise OperationalError
  | Some _ =>
      if has_trigger t d then Raise OperationalError
      else Ok (mk_db (knowledge d) (knowledge_fts d) (triggers d ++ [t])
                     (indexes d) (metadata d))
  end.

Definition create_index (name : string) (d : db) : result db :=
  match knowledge d with
  | None => Raise OperationalError
  | Some _ =>
      if existsb (String.eqb name) (indexes d) then Raise OperationalError
      else Ok (mk_db (knowledge d) (knowledge_fts d) (triggers d)
                     (indexes d ++ [name]) (metadata d))
  end.

Definition create_table_metadata (d : db) : result db :=
  match metadata d with
  | Some _ => Raise OperationalError
  | None => Ok (set_metadata [] d)
  end.

(** *** Trigger bodies (lines 78-100) *)

Definition mirror (r : krow) : ftsrow :=
  mk_ftsrow (k_rowid r) (k_id r) (k_category r) (k_keywords r) (k_context r).

(** [knowledge_ai]: INSERT INTO knowledge_fts(rowid, id, category,
    keywords, context) VALUES (new.rowid, new.id, ...). *)
Definition knowledge_ai_body (new : krow) (d : db) : result db :=
  match knowledge_fts d with
  | None => Raise OperationalError
  | Some entries => Ok (set_knowledge_fts (entries ++ [mirror new]) d)
  end.

(** The rows a statement on [knowledge_fts] finds under [rowid = r]:
    those of [knowledge] as it stands when the statement runs. *)
Definition fts_rows_at (r : Z) (d : db) : list ftsrow :=
  match knowledge d with
  | Some rows => map mirror (filter (fun row => Z.eqb (k_rowid row) r) rows)
  | None => []
  end.

(** Taking rows out of the index: the entries built from the values the
    rows show are dropped, any other entry stays. *)
Definition drop_entries (targets entries : list ftsrow) : list ftsrow :=
  filter (fun e => negb (existsb (ftsrow_eqb e) targets)) entries.

(** [knowledge_ad]: DELETE FROM knowledge_fts WHERE rowid = old.rowid.
    The statement deletes the rows it finds; the trigger runs AFTER
    DELETE, when [knowledge] no longer has the row. *)
Definition knowledge_ad_body (old : krow) (d : db) : result db :=
  match knowledge_fts d with
  | None => Raise OperationalError
  | Some entries =>
      Ok (set_knowledge_fts
            (drop_entries (fts_rows_at (k_rowid old) d) entries) d)
  end.

(** [knowledge_au]: UPDATE knowledge_fts SET id = new.id, category =
    new.category, keywords = new.keywords, context = new.context
    WHERE rowid = old.rowid.  Each row the statement finds is taken out
    of the index as it reads now and indexed again with the new values;
    the trigger runs AFTER UPDATE, when [knowledge] already shows the new
    values. *)
Definition knowledge_au_body (old new : krow) (d : db) : result db :=
  match knowledge_fts d with
  | None => Raise OperationalError
  | Some entries =>
      let targets := fts_rows_at (k_rowid old) d in
      Ok (set_knowledge_fts
            (drop_entries targets entries
             ++ map (fun t => mk_ftsrow (f_rowid t) (k_id new) (k_category new)
                                        (k_keywords new) (k_context new))
                    targets)
            d)
  end.

Definition fire (t : trigger) (body : db -> result db) (d : db) : result db :=
  if has_trigger t d then body d else Ok d.

(** *** Row operations on [knowledge] *)

Definition not_null (column : string) (v : sqlval) : result unit :=
  match v with
  | SNull => Raise (IntegrityError (NotNullFailed column))
  | _ => Ok tt
  end.

(** [id TEXT PRIMARY KEY]: no two rows hold the same non-NULL id. *)
Definition unique_id (v : sqlval) (rows : list krow) : result unit :=
  match v with
  | SNull => Ok tt
  | _ =>
      if existsb (fun r => sqlval_eqb (k_id r) v) rows
      then Raise (IntegrityError UniqueFailed)
      else Ok tt
  end.

(** The column constraints of CREATE TABLE knowledge (lines 55-62), for a
    row against the other rows of the table: the NOT NULL columns first,
    then the primary key. *)
Definition check_row (new : krow) (others : list krow) : result unit :=
  _ <- not_null "category" (k_category new) ;;
  _ <- not_null "keywords" (k_keywords new) ;;
  _ <- not_null "context" (k_context new) ;;
  _ <- not_null "priority" (k_priority new) ;;
  unique_id (k_id new) others.

(** A fresh row takes the rowid after the largest one in use. *)
Definition next_rowid (rows : list krow) : Z :=
  (1 + fold_right Z.max 0 (map k_rowid rows))%Z.

(** INSERT INTO knowledge (id, category, keywords, context, priority,
    embedding) VALUES (?, ?, ?, ?, ?, NULL) with bound values. *)
Definition insert_knowledge
           (id category keywords context priority : sqlval) (d : db)
  : result db :=
  match knowledge d with
  | None => Raise OperationalError
  | Some rows =>
      let new := mk_krow (next_rowid rows)
                         (text_affinity id) (text_affinity category)
                         (text_affinity keywords) (text_affinity context)
                         (text_affinity priority) SNull in
      _ <- check_row new rows ;;
      fire knowledge_ai (knowledge_ai_body new)
           (set_knowledge (rows ++ [new]) d)
  end.

Fixpoint fire_each (t : trigger) (body : krow -> db -> result db)
         (olds : list krow) (d : db) : result db :=
  match olds with
  | [] => Ok d
  | old :: rest => d' <- fire t (body old) d ;; fire_each t body rest d'
  end.

(** DELETE FROM knowledge WHERE rowid = r: the script never runs it, the
    [knowledge_ad] trigger is written for it. *)
Definition delete_knowledge (r : Z) (d : db) : result db :=
  match knowledge d with
  | None => Raise OperationalError
  | Some rows =>
      let olds := filter (fun row => Z.eqb (k_rowid row) r) rows in
      let kept := filter (fun row => negb (Z.eqb (k_rowid row) r)) rows in
      fire_each knowledge_ad knowledge_ad_body olds (set_knowledge kept d)
  end.

(** UPDATE knowledge SET id = ?, category = ?, keywords = ?, context = ?,
    priority = ?, embedding = ? WHERE rowid = r: the script never runs it,
    the [knowledge_au] trigger is written for it. *)
Definition update_knowledge (r : Z)
           (id category keywords context priority embedding : sqlval)
           (d : db) : result db :=
  match knowledge d with
  | None => Raise OperationalError
  | Some rows =>
      match find (fun row => Z.eqb (k_rowid row) r) rows with
      | None => Ok d
      | Some old =>
          let new := mk_krow (k_rowid old)
                             (text_affinity id) (text_affinity category)
                             (text_affinity keywords) (text_affinity context)
                             (text_affinity priority) embedding in
          let others :=
            filter (fun row => negb (Z.eqb (k_rowid row) r)) rows in
          _ <- check_row new others ;;
          fire knowledge_au (knowledge_au_body old new)
               (set_knowledge
                  (map (fun row =>
                          if Z.eqb (k_rowid row) r then new else row) rows)
                  d)
      end
  end.

(** INSERT INTO metadata (key, value) VALUES (...), (...), (...), (...). *)
Definition insert_metadata (pairs : list (string * string)) (d : db)
  : result db :=
  match metadata d with
  | None => Raise OperationalError
  | Some rows =>
      if existsb (fun kv =>
                    existsb (fun old => String.eqb (fst old) (fst kv)) rows)
                 pairs
      then Raise (IntegrityError UniqueFailed)
      else Ok (set_metadata (rows ++ pairs) d)
  end.

(** *** Connections and implicit transactions *)

(** A connection of the [sqlite3] module in its default mode: the file's
    committed contents, the contents this connection sees, and whether a
    transaction is open.  A schema statement outside a transaction is
    committed at once; the module opens a transaction before the first
    INSERT and leaves it open until [commit]. *)
Record connection : Type := mk_connection {
  committed : db;
  working : db;
  in_transaction : bool
}.

(** A statement of the builder: it runs on a connection and returns or
    raises; the connection it leaves is the one the exception escapes
    with. *)
Definition M (A : Type) : Type := connection -> connection * result A.

Definition ret {A} (a : A) : M A := fun c => (c, Ok a).

Definition bindM {A B} (m : M A) (k : A -> M B) : M B :=
  fun c =>
    match m c with
    | (c', Ok a) => k a c'
    | (c', Raise e) => (c', Raise e)
    end.

Notation "x <~ m ;;; k" := (bindM m (fun x => k))
  (at level 61, m at next level, right associativity).
Notation "m ;;; k" := (bindM m (fun _ => k))
  (at level 61, right associativity).

Definition lift {A} (r : result A) : M A := fun c => (c, r).

Definition connect (file : option db) : connection :=
  let d := match file with Some d => d | None => empty_db end in
  mk_connection d d false.

(** [cursor.execute] of a CREATE statement. *)
Definition execute_ddl (stmt : db -> result db) : M unit :=
  fun c =>
    match stmt (working c) with
    | Raise e => (c, Raise e)
    | Ok d =>
        if in_transaction c
        then (mk_connection (committed c) d true, Ok tt)
        else (mk_connection d d false, Ok tt)
    end.

(** [cursor.execute] of an INSERT: the transaction is opened first, then
    the parameters are bound, then the statement runs; a statement that
    fails changes nothing. *)
Definition execute_dml (stmt : result (db -> result db)) : M unit :=
  fun c =>
    let c := mk_connection (committed c) (working c) true in
    match stmt with
    | Raise e => (c, Raise e)
    | Ok run =>
        match run (working c) with
        | Raise e => (c, Raise e)
        | Ok d => (mk_connection (committed c) d true, Ok tt)
        end
    end.

Definition commit : M unit :=
  fun c => (mk_connection (working c) (working c) false, Ok tt).

(* ===================================================================== *)
(** ** The database builder *)
(* ===================================================================== *)

(** The builder and [main] are modelled by what they do to the output
    file and by how they end; their progress messages are left out. *)

(** The body of the insertion loop (lines 110-119). *)
Definition insert_scenario (scenario : pyval) : M unit :=
  scenario_id <~ lift (py_getitem scenario "id") ;;;
  category <~ lift (py_getitem scenario "category") ;;;
  keywords <~ lift (ks <- py_getitem scenario "keywords" ;;
                    py_join ", " ks) ;;;
  context <~ lift (py_getitem scenario "context") ;;;
  priority <~ lift (py_getitem scenario "priority") ;;;
  execute_dml
    (a1 <- adapt scenario_id ;;
     a2 <- adapt category ;;
     a3 <- adapt (PStr keywords) ;;
     a4 <- adapt context ;;
     a5 <- adapt priority ;;
     Ok (insert_knowledge a1 a2 a3 a4 a5)).

Fixpoint insert_scenarios (scenarios : list pyval) : M unit :=
  match scenarios with
  | [] => ret tt
  | scenario :: rest => insert_scenario scenario ;;; insert_scenarios rest
  end.

Definition metadata_pairs (scenarios : list pyval) : list (string * string) :=
  [ ("model_name", "keyword-only");
    ("embedding_dim", "0");
    ("version", "1.0-basic");
    ("total_scenarios", str_of_nat (List.length scenarios)) ].

(** Everything [create_database] runs on its connection. *)
Definition build (scenarios : list pyval) : M unit :=
  execute_ddl create_table_knowledge ;;;
  execute_ddl create_virtual_table_knowledge_fts ;;;
  execute_ddl (create_trigger knowledge_ai) ;;;
  execute_ddl (create_trigger knowledge_ad) ;;;
  execute_ddl (create_trigger knowledge_au) ;;;
  execute_ddl (create_index "idx_category") ;;;
  execute_ddl (create_index "idx_priority") ;;;
  insert_scenarios scenarios ;;;
  execute_ddl create_table_metadata ;;;
  execute_dml (Ok (insert_metadata (metadata_pairs scenarios))) ;;;
  commit.

(** [db_path.unlink()]. *)
Definition unlink (file : option db) : option db := None.

(** [create_database(db_path, scenarios)]: the state of the output path
    before, and after together with how the call ended.  When an
    exception escapes, the open transaction is never committed and the
    file keeps the committed contents only. *)
Definition create_database (db_path : option db) (scenarios : list pyval)
  : option db * result unit :=
  let db_path :=
    match db_path with
    | Some _ => unlink db_path
    | None => db_path
    end in
  let '(conn, r) := build scenarios (connect db_path) in
  (Some (committed conn), r).

(* ===================================================================== *)
(** ** The top-level procedure *)
(* ===================================================================== *)

(** How the process ends: [sys.exit(code)], falling off the end of
    [main] (status 0), or an uncaught exception. *)
Inductive outcome : Type :=
| Exited (code : Z)
| Uncaught (e : exn).

Definition exit_status (o : outcome) : Z :=
  match o with
  | Exited code => code
  | Uncaught _ => 1%Z
  end.

(** The verifier (lines 178-190): row count of [knowledge] and the
    metadata as a dict. *)
Definition verify (file : option db)
  : result (nat * list (string * string)) :=
  let conn := connect file in
  match knowledge (working conn) with
  | None => Raise OperationalError
  | Some rows =>
      match metadata (working conn) with
      | None => Raise OperationalError
      | Some pairs => Ok (List.length rows, pairs)
      end
  end.

(** [main()]: [knowledge_dir] is [None] when the directory does not
    exist and otherwise its [*.json] entries; [output_db] is the state of
    the output path.  Returns the output path's state and the outcome. *)
Definition main (knowledge_dir : option (list json_file))
           (output_db : option db) : option db * outcome :=
  match knowledge_dir with
  | None => (output_db, Exited 1)
  | Some json_files =>
      let scenarios := fst (load_knowledge_files json_files) in
      match scenarios with
      | [] => (output_db, Exited 1)
      | _ :: _ =>
          match create_database output_db scenarios with
          | (output_db', Raise e) => (output_db', Uncaught e)
          | (output_db', Ok _) =>
              match verify output_db' with
              | Raise e => (output_db', Uncaught e)
              | Ok _ => (output_db', Exited 0)
              end
          end
      end
  end.

(* ===================================================================== *)
(** ** Vocabulary of the specification *)
(* ===================================================================== *)

(** The category the loader uses for a file whose parsed object is [d]. *)
Definition file_category (d : list (string * pyval)) : pyval :=
  match dict_get "category" d with
  | Some c => c
  | None => PStr "unknown"
  end.

(** What one file adds to [all_scenarios], and what it prints. *)
Definition file_scenarios (f : json_file) : list pyval :=
  fst (load_file f ([], [])).

Definition file_log (f : json_file) : list log_line :=
  snd (load_file f ([], [])).

(** The scenario objects a file holds: the elements of its [scenarios]
    list. *)
Definition scenario_objects (f : json_file) : list pyval :=
  match content f with
  | Parsed (PDict d) =>
      match dict_get "scenarios" d with
      | Some (PList l) => l
      | _ => []
      end
  | _ => []
  end.

Definition total_scenario_objects (json_files : list json_file) : nat :=
  List.length (flat_map scenario_objects json_files).

Definition is_str (v : pyval) : bool :=
  match v with
  | PStr _ => true
  | _ => false
  end.

Definition is_str_list (v : pyval) : bool :=
  match v with
  | PList l => forallb is_str l
  | _ => false
  end.

Definition has_field (p : pyval -> bool) (k : string)
           (d : list (string * pyval)) : bool :=
  match dict_get k d with
  | Some v => p v
  | None => false
  end.

(** A scenario object as section 6 of the specification shapes it: a
    mapping with a string [id], a list of strings [keywords], and strings
    [context] and [priority]. *)
Definition scenario_object_ok (scenario : pyval) : bool :=
  match scenario with
  | PDict d =>
      has_field is_str "id" d && has_field is_str_list "keywords" d
      && has_field is_str "context" d && has_field is_str "priority" d
  | _ => false
  end.

(** A scenario as the builder receives it: the same with a string
    [category]. *)
Definition well_formed (scenario : pyval) : bool :=
  match scenario with
  | PDict d => scenario_object_ok scenario && has_field is_str "category" d
  | _ => false
  end.

(** A file of a valid input directory: unreadable (and then skipped), or
    an object whose [category], when present, is a string and whose
    [scenarios], when present, is a list of scenario objects. *)
Definition file_ok (f : json_file) : bool :=
  match content f with
  | LoadError _ => true
  | Parsed (PDict d) =>
      is_str (file_category d)
      && match dict_get "scenarios" d with
         | None => true
         | Some (PList l) => forallb scenario_object_ok l
         | Some _ => false
         end
  | Parsed _ => false
  end.

Definition is_dict (v : pyval) : bool :=
  match v with
  | PDict _ => true
  | _ => false
  end.

(** Every element of the file's [scenarios] list is an object. *)
Definition objects_only (f : json_file) : bool :=
  forallb is_dict (scenario_objects f).

(** [scenario['id']], or [None] where the lookup raises. *)
Definition id_of (scenario : pyval) : pyval :=
  match py_getitem scenario "id" with
  | Ok v => v
  | Raise _ => PNone
  end.

Definition valid_directory (json_files : list json_file) : Prop :=
  forallb file_ok json_files = true
  /\ NoDup (map id_of (flat_map scenario_objects json_files)).

(** The row the loop body (lines 110-119) stores for a scenario under a
    given rowid, before the constraints are checked. *)
Definition row_for (scenario : pyval) (rowid : Z) : result krow :=
  scenario_id <- py_getitem scenario "id" ;;
  category <- py_getitem scenario "category" ;;
  ks <- py_getitem scenario "keywords" ;;
  keywords <- py_join ", " ks ;;
  context <- py_getitem scenario "context" ;;
  priority <- py_getitem scenario "priority" ;;
  a1 <- adapt scenario_id ;;
  a2 <- adapt category ;;
  a3 <- adapt (PStr keywords) ;;
  a4 <- adapt context ;;
  a5 <- adapt priority ;;
  Ok (mk_krow rowid (text_affinity a1) (text_affinity a2) (text_affinity a3)
              (text_affinity a4) (text_affinity a5) SNull).

Definition row_count (d : db) : nat :=
  match knowledge d with
  | Some rows => List.length rows
  | None => 0
  end.

(** The number of entries the index holds. *)
Definition fts_count (d : db) : nat :=
  match knowledge_fts d with
  | Some entries => List.length entries
  | None => 0
  end.

(** The database once the seven schema statements have run. *)
Definition schema_db : db :=
  mk_db (Some []) (Some []) [knowledge_ai; knowledge_ad; knowledge_au]
        ["idx_category"; "idx_priority"] None.

(** The database inside the insertion loop once [rows] are stored. *)
Definition loop_db (rows : list krow) : db :=
  mk_db (Some rows) (Some (map mirror rows))
        [knowledge_ai; knowledge_ad; knowledge_au]
        ["idx_category"; "idx_priority"] None.

(** The database a successful build commits. *)
Definition built_db (rows : list krow) (scenarios : list pyval) : db :=
  mk_db (Some rows) (Some (map mirror rows))
        [knowledge_ai; knowledge_ad; knowledge_au]
        ["idx_category"; "idx_priority"] (Some (metadata_pairs scenarios)).

(** The id a scenario is stored under. *)
Definition sql_id (scenario : pyval) : sqlval :=
  match adapt (id_of scenario) with
  | Ok v => text_affinity v
  | Raise _ => SNull
  end.

(** A scenario after [scenario['category'] = category]. *)
Definition tagged (category : pyval) (scenario : pyval) : pyval :=
  match py_setitem scenario "category" category with
  | Ok scenario' => scenario'
  | Raise _ => scenario
  end.

(** Each scenario is stored as the row the loop body builds for it. *)
Definition stored_as (scenarios : list pyval) (rows : list krow) : Prop :=
  Forall2 (fun s row => row_for s (k_rowid row) = Ok row) scenarios rows.

(** No two rows share a non-NULL id. *)
Definition ids_unique (rows : list krow) : Prop :=
  forall i j r1 r2,
    nth_error rows i = Some r1 -> nth_error rows j = Some r2 ->
    k_id r1 = k_id r2 -> k_id r1 <> SNull -> i = j.

(** The mirror agrees with the table: the index holds one entry per row
    of [knowledge], built from the row's present values, in rowid order,
    and nothing else. *)
Definition fts_consistent (d : db) : Prop :=
  exists rows,
    knowledge d = Some rows /\ knowledge_fts d = Some (map mirror rows).

(** The three synchronization triggers are in place. *)
Definition triggers_installed (d : db) : bool :=
  has_trigger knowledge_ai d && has_trigger knowledge_ad d
  && has_trigger knowledge_au d.

(** For each scenario the loader returns, in order, the file it was
    read from. *)
Definition enclosing_files (json_files : list json_file) : list json_file :=
  flat_map (fun f => map (fun _ => f) (file_scenarios f)) json_files.

(** The category the loader gives the scenarios of a file. *)
Definition category_of (f : json_file) : pyval :=
  match content f with
  | Parsed (PDict d) => file_category d
  | _ => PStr "unknown"
  end.

(** A row-level operation on [knowledge]. *)
Inductive op : Type :=
| OpInsert (id category keywords context priority : sqlval)
| OpDelete (rowid : Z)
| OpUpdate (rowid : Z)
           (id category keywords context priority embedding : sqlval).

Definition run_op (o : op) (d : db) : result db :=
  match o with
  | OpInsert a1 a2 a3 a4 a5 => insert_knowledge a1 a2 a3 a4 a5 d
  | OpDelete r => delete_knowledge r d
  | OpUpdate r a1 a2 a3 a4 a5 a6 => update_knowledge r a1 a2 a3 a4 a5 a6 d
  end.

(** A statement that fails changes nothing. *)
Definition step (d : db) (o : op) : db :=
  match run_op o d with
  | Ok d' => d'
  | Raise _ => d
  end.

Definition run_ops (ops : list op) (d : db) : db := fold_left step ops d.

Definition is_insert (o : op) : bool :=
  match o with
  | OpInsert _ _ _ _ _ => true
  | _ => false
  end.

(* ===================================================================== *)
(** ** Console output of the builder and of [main] *)
(* ===================================================================== *)

(** One constructor per [print] call of [create_database] and [main], in
    the order of the source; the loader's lines are embedded.  The paths
    some messages show are not part of the model. *)
Inductive line : Type :=
| LoaderLine (l : log_line)
| RemovingExisting
| CreatingDatabase
| InsertingScenarios (n : nat)
| Processed (i n : nat)
| CreatedSuccessfully (n : nat)
| LocationLine
| NoteBasicVersion
| NoteKeywordSearch
| Rule
| Title
| ProjectRoot
| KnowledgeDir
| OutputDatabase
| Blank
| ErrorDirectoryNotFound
| ErrorNoScenarios
| TotalLoaded (n : nat)
| Verifying
| Contains (count : nat)
| Model (name : string)
| Version (v : string)
| RuleAfterBlank
| Complete
| NextSteps
| NextStep (k : nat).

(** [if i % 10 == 0: print(...)] (lines 121-122). *)
Definition progress (i total : nat) : list line :=
  if Nat.eqb (i mod 10) 0 then [Processed i total] else [].

(** The insertion loop with its counter [i] of [enumerate(scenarios, 1)]
    and what it prints. *)
Fixpoint insert_scenarios_out (i total : nat) (scenarios : list pyval)
         (c : connection) : connection * result unit * list line :=
  match scenarios with
  | [] => (c, Ok tt, [])
  | scenario :: rest =>
      match insert_scenario scenario c with
      | (c', Raise e) => (c', Raise e, [])
      | (c', Ok _) =>
          let '(c'', r, out) := insert_scenarios_out (S i) total rest c' in
          (c'', r, progress i total ++ out)
      end
  end.

(** The seven schema statements (lines 54-104). *)
Definition schema_statements : M unit :=
  execute_ddl create_table_knowledge ;;;
  execute_ddl create_virtual_table_knowledge_fts ;;;
  execute_ddl (create_trigger knowledge_ai) ;;;
  execute_ddl (create_trigger knowledge_ad) ;;;
  execute_ddl (create_trigger knowledge_au) ;;;
  execute_ddl (create_index "idx_category") ;;;
  execute_ddl (create_index "idx_priority").

(** The metadata table, its rows and the commit (lines 125-140). *)
Definition finish (scenarios : list pyval) : M unit :=
  execute_ddl create_table_metadata ;;;
  execute_dml (Ok (insert_metadata (metadata_pairs scenarios))) ;;;
  commit.

(** [create_database] together with what it prints. *)
Definition create_database_out (db_path : option db)
           (scenarios : list pyval) : option db * result unit * list line :=
  let out :=
    match db_path with
    | Some _ => [RemovingExisting]
    | None => []
    end in
  let db_path :=
    match db_path with
    | Some _ => unlink db_path
    | None => db_path
    end in
  let out := out ++ [CreatingDatabase] in
  match schema_statements (connect db_path) with
  | (conn, Raise e) => (Some (committed conn), Raise e, out)
  | (conn, Ok _) =>
      let total := List.length scenarios in
      let out := out ++ [InsertingScenarios total] in
      match insert_scenarios_out 1 total scenarios conn with
      | (conn, Raise e, lines) => (Some (committed conn), Raise e, out ++ lines)
      | (conn, Ok _, lines) =>
          match finish scenarios conn with
          | (conn, Raise e) => (Some (committed conn), Raise e, out ++ lines)
          | (conn, Ok _) =>
              (Some (committed conn), Ok tt,
               out ++ lines
               ++ [CreatedSuccessfully total; LocationLine;
                   NoteBasicVersion; NoteKeywordSearch])
          end
      end
  end.

(** [dict(cursor.fetchall()).get(key, default)]: of two rows with one key
    the later wins. *)
Definition metadata_get (pairs : list (string * string))
           (key default : string) : string :=
  match find (fun kv => String.eqb (fst kv) key) (List.rev pairs) with
  | Some kv => snd kv
  | None => default
  end.

(** Lines 155-161. *)
Definition header : list line :=
  [Rule; Title; Rule; ProjectRoot; KnowledgeDir; OutputDatabase; Blank].

(** Lines 192-198. *)
Definition footer : list line :=
  [RuleAfterBlank; Complete; Rule; NextSteps;
   NextStep 1; NextStep 2; NextStep 3].

(** [main] together with what it prints. *)
Definition main_out (knowledge_dir : option (list json_file))
           (output_db : option db) : option db * outcome * list line :=
  match knowledge_dir with
  | None => (output_db, Exited 1, header ++ [ErrorDirectoryNotFound])
  | Some json_files =>
      let '(scenarios, log) := load_knowledge_files json_files in
      let out := header ++ map LoaderLine log in
      match scenarios with
      | [] => (output_db, Exited 1, out ++ [ErrorNoScenarios])
      | _ :: _ =>
          let out := out ++ [TotalLoaded (List.length scenarios)] in
          match create_database_out output_db scenarios with
          | (output_db', Raise e, lines) =>
              (output_db', Uncaught e, out ++ lines)
          | (output_db', Ok _, lines) =>
              let out := out ++ lines ++ [Verifying] in
              let conn := connect output_db' in
              match knowledge (working conn) with
              | None => (output_db', Uncaught OperationalError, out)
              | Some rows =>
                  let out := out ++ [Contains (List.length rows)] in
                  match metadata (working conn) with
                  | None => (output_db', Uncaught OperationalError, out)
                  | Some pairs =>
                      (output_db', Exited 0,
                       out
                       ++ [Model (metadata_get pairs "model_name" "unknown");
                           Version (metadata_get pairs "version" "unknown")]
                       ++ footer)
                  end
              end
          end
      end
  end.

(** The numbers at which the loop reports progress among [1..n]. *)
Definition progress_points (n : nat) : list nat :=
  filter (fun i => Nat.eqb (i mod 10) 0) (seq 1 n).

(** The values a [for] loop accepts. *)
Definition iterable (v : pyval) : bool :=
  match v with
  | PList _ => true
  | PDict _ => true
  | PStr _ => true
  | _ => false
  end.

(** The lines [create_database] can print. *)
Definition builder_line (x : line) : bool :=
  match x with
  | RemovingExisting => true
  | CreatingDatabase => true
  | InsertingScenarios _ => true
  | Processed _ _ => true
  | CreatedSuccessfully _ => true
  | LocationLine => true
  | NoteBasicVersion => true
  | NoteKeywordSearch => true
  | _ => false
  end.

(** What [create_database] prints before its loop. *)
Definition builder_prefix (db_path : option db) (total : nat) : list line :=
  match db_path with
  | Some _ => [RemovingExisting]
  | None => []
  end ++ [CreatingDatabase; InsertingScenarios total].

(** The keys the loop body reads, in its order. *)
Definition required_keys : list string :=
  ["id"; "category"; "keywords"; "context"; "priority"].

(* ===================================================================== *)
(** ** Dicts and the loader *)
(* ===================================================================== *)

Section Dicts.

Lemma dict_get_set_same k v d : dict_get k (dict_set k v d) = Some v.
Proof.
  induction d as [|[k' v'] d IH]; simpl.
  - now rewrite String.eqb_refl.
  - destruct (String.eqb k k') eqn:E; simpl; rewrite E; auto.
Qed.

Lemma dict_get_set_other k k0 v d :
  k <> k0 -> dict_get k0 (dict_set k v d) = dict_get k0 d.
Proof.
  intros Hne. induction d as [|[k' v'] d IH]; simpl.
  - destruct (String.eqb k0 k) eqn:E; auto.
    apply String.eqb_eq in E. congruence.
  - destruct (String.eqb k k') eqn:E; simpl.
    + apply String.eqb_eq in E; subst k'.
      destruct (String.eqb k0 k) eqn:E0; auto.
      apply String.eqb_eq in E0. congruence.
    + now rewrite IH.
Qed.

Lemma has_field_set_other p k k0 v d :
  k <> k0 -> has_field p k0 (dict_set k v d) = has_field p k0 d.
Proof. intros H. unfold has_field. now rewrite dict_get_set_other. Qed.

End Dicts.

Section Loader.

Lemma tag_scenarios_acc category items acc :
  tag_scenarios category items acc
  = (acc ++ fst (tag_scenarios category items []),
     snd (tag_scenarios category items [])).
Proof.
  revert acc. induction items as [|s rest IH]; intros acc; simpl.
  - now rewrite app_nil_r.
  - destruct (py_setitem s "category" category) as [s'|e]; simpl.
    + rewrite (IH (acc ++ [s'])), (IH [s']). simpl.
      now rewrite <- app_assoc.
    + now rewrite app_nil_r.
Qed.

Lemma tag_scenarios_dicts category ds acc :
  tag_scenarios category (map PDict ds) acc
  = (acc ++ map (fun d => PDict (dict_set "category" category d)) ds, None).
Proof.
  revert acc. induction ds as [|d ds IH]; intros acc; simpl.
  - now rewrite app_nil_r.
  - rewrite IH. now rewrite <- app_assoc.
Qed.

(** Whatever the loop appends carries the category it was given. *)
Lemma tag_scenarios_category category items :
  Forall (fun s => py_getitem s "category" = Ok category)
         (fst (tag_scenarios category items [])).
Proof.
  induction items as [|s rest IH]; simpl.
  - constructor.
  - destruct s; simpl; try constructor.
    rewrite tag_scenarios_acc. simpl. constructor; auto.
    simpl. now rewrite dict_get_set_same.
Qed.

Lemma load_parsed_acc data acc :
  load_parsed data acc
  = (acc ++ fst (load_parsed data []), snd (load_parsed data [])).
Proof.
  unfold load_parsed.
  destruct (py_get data "category" (PStr "unknown")) as [c|e];
    [|now rewrite app_nil_r].
  destruct (py_get data "scenarios" (PList [])) as [s|e];
    [|now rewrite app_nil_r].
  destruct (py_iter s) as [items|e]; [|now rewrite app_nil_r].
  rewrite (tag_scenarios_acc c items acc).
  destruct (tag_scenarios c items []) as [added [e|]]; reflexivity.
Qed.

Lemma load_file_acc f acc out :
  load_file f (acc, out) = (acc ++ file_scenarios f, out ++ file_log f).
Proof.
  unfold file_scenarios, file_log, load_file.
  destruct (content f) as [e|data]; simpl.
  - now rewrite app_nil_r, <- app_assoc.
  - rewrite (load_parsed_acc data acc).
    destruct (load_parsed data []) as [added [[n c]|e]]; simpl;
      now rewrite <- app_assoc.
Qed.

Lemma load_files_acc fs acc out :
  load_files fs (acc, out)
  = (acc ++ flat_map file_scenarios fs, out ++ flat_map file_log fs).
Proof.
  revert acc out. induction fs as [|f fs IH]; intros acc out.
  - simpl. now rewrite !app_nil_r.
  - change (load_files (f :: fs) (acc, out))
      with (load_files fs (load_file f (acc, out))).
    rewrite load_file_acc, IH. simpl.
    now rewrite <- !app_assoc.
Qed.

Lemma load_knowledge_files_scenarios fs :
  fst (load_knowledge_files fs) = flat_map file_scenarios fs.
Proof.
  destruct fs as [|f fs]; [reflexivity|].
  unfold load_knowledge_files. now rewrite load_files_acc.
Qed.

Lemma load_knowledge_files_log f fs :
  snd (load_knowledge_files (f :: fs)) = flat_map file_log (f :: fs).
Proof. unfold load_knowledge_files. now rewrite load_files_acc. Qed.

Lemma file_scenarios_load_error name e :
  file_scenarios (mk_file name (LoadError e)) = [].
Proof. reflexivity. Qed.

Lemma file_log_load_error name e :
  file_log (mk_file name (LoadError e))
  = [Loading name; ErrorLoading name e].
Proof. reflexivity. Qed.

Lemma file_log_loading f : In (Loading (file_name f)) (file_log f).
Proof.
  unfold file_log, load_file.
  destruct (content f) as [e|data]; simpl; auto.
  destruct (load_parsed data []) as [added [[n c]|e]]; simpl; auto.
Qed.

(** The value the loader iterates over for a file whose object is [d]. *)
Lemma load_parsed_dict d acc :
  load_parsed (PDict d) acc
  = match py_iter (match dict_get "scenarios" d with
                   | Some v => v
                   | None => PList []
                   end) with
    | Raise e => (acc, Raise e)
    | Ok items =>
        match tag_scenarios (file_category d) items acc with
        | (all', Some e) => (all', Raise e)
        | (all', None) => (all', Ok (List.length items, file_category d))
        end
    end.
Proof.
  unfold load_parsed, py_get, file_category.
  destruct (dict_get "category" d); destruct (dict_get "scenarios" d);
    reflexivity.
Qed.

Lemma file_scenarios_category f s :
  In s (file_scenarios f) ->
  exists d, content f = Parsed (PDict d)
            /\ py_getitem s "category" = Ok (file_category d).
Proof.
  unfold file_scenarios, load_file.
  destruct (content f) as [e|data]; simpl; [tauto|].
  destruct data; simpl; try tauto.
  intros Hin. exists d. split; [reflexivity|].
  rewrite load_parsed_dict in Hin.
  destruct (py_iter _) as [items|e]; simpl in Hin; [|tauto].
  pose proof (tag_scenarios_category (file_category d) items) as Hall.
  destruct (tag_scenarios (file_category d) items []) as [added [e|]];
    simpl in *; rewrite Forall_forall in Hall; auto.
Qed.

Lemma file_scenarios_dicts name d ds :
  dict_get "scenarios" d = Some (PList (map PDict ds)) ->
  file_scenarios (mk_file name (Parsed (PDict d)))
  = map (fun s => PDict (dict_set "category" (file_category d) s)) ds.
Proof.
  intros H. unfold file_scenarios, load_file. simpl.
  rewrite load_parsed_dict, H. simpl.
  now rewrite tag_scenarios_dicts.
Qed.

Lemma file_log_dicts name d ds :
  dict_get "scenarios" d = Some (PList (map PDict ds)) ->
  file_log (mk_file name (Parsed (PDict d)))
  = [Loading name; Loaded (List.length ds) (file_category d)].
Proof.
  intros H. unfold file_log, load_file. simpl.
  rewrite load_parsed_dict, H. simpl.
  rewrite tag_scenarios_dicts. simpl. now rewrite length_map.
Qed.

Lemma file_no_scenarios name d :
  dict_get "scenarios" d = None ->
  load_file (mk_file name (Parsed (PDict d))) ([], [])
  = ([], [Loading name; Loaded 0 (file_category d)]).
Proof.
  intros H. unfold load_file. simpl. now rewrite load_parsed_dict, H.
Qed.

End Loader.

(* ===================================================================== *)
(** ** Properties of the loader *)
(* ===================================================================== *)

(** C7. A file whose object has no [category] key gives its scenarios the
    category ["unknown"], and a file whose object has no [scenarios] key
    contributes the empty list; in both cases the file is reported as
    loaded, not as an error. *)
Theorem load_defaults name (d : list (string * pyval)) acc out :
  let f := mk_file name (Parsed (PDict d)) in
  (dict_get "category" d = None ->
   Forall (fun s => py_getitem s "category" = Ok (PStr "unknown"))
          (file_scenarios f)
   /\ forall ds,
       dict_get "scenarios" d = Some (PList (map PDict ds)) ->
       load_file f (acc, out)
       = (acc ++ map (fun s =>
                        PDict (dict_set "category" (PStr "unknown") s)) ds,
          out ++ [Loading name;
                  Loaded (List.length ds) (PStr "unknown")]))
  /\ (dict_get "scenarios" d = None ->
      load_file f (acc, out)
      = (acc, out ++ [Loading name; Loaded 0 (file_category d)])).
Proof.
  intros f. split.
  - intros Hc.
    assert (Hfc : file_category d = PStr "unknown")
      by (unfold file_category; now rewrite Hc).
    split.
    + apply Forall_forall. intros s Hin.
      destruct (file_scenarios_category f s Hin) as [d' [Hd Hs]].
      inversion Hd; subst d'. now rewrite <- Hfc.
    + intros ds Hs. rewrite load_file_acc. subst f.
      rewrite (file_scenarios_dicts name d ds Hs).
      rewrite (file_log_dicts name d ds Hs). now rewrite Hfc.
  - intros Hs. rewrite load_file_acc. subst f.
    unfold file_scenarios, file_log. rewrite (file_no_scenarios name d Hs).
    simpl. now rewrite app_nil_r.
Qed.

Lemma load_defaults_witness :
  load_file (mk_file "water.json"
               (Parsed (PDict [("scenarios",
                                PList [PDict [("id", PStr "w-01")]])])))
            ([], [])
  = ([PDict [("id", PStr "w-01"); ("category", PStr "unknown")]],
     [Loading "water.json"; Loaded 1 (PStr "unknown")])
  /\ load_file (mk_file "empty.json" (Parsed (PDict [("category", PStr "x")])))
               ([], [])
     = ([], [Loading "empty.json"; Loaded 0 (PStr "x")]).
Proof.
  split.
  - destruct (load_defaults "water.json"
                [("scenarios", PList [PDict [("id", PStr "w-01")]])] [] [])
      as [H _].
    destruct (H eq_refl) as [_ H'].
    exact (H' [[("id", PStr "w-01")]] eq_refl).
  - destruct (load_defaults "empty.json" [("category", PStr "x")] [] [])
      as [_ H].
    exact (H eq_refl).
Defined.

(** C8. A file whose read or parse fails is caught, reported and skipped:
    the loader returns, its scenarios are those of the other files in
    order, its output has the error line for that file between the lines
    of the files around it, and every other file is still visited. *)
Theorem load_skips_unreadable_file before name e after :
  let bad := mk_file name (LoadError e) in
  let r := load_knowledge_files (before ++ bad :: after) in
  fst r = fst (load_knowledge_files (before ++ after))
  /\ fst r = flat_map file_scenarios before ++ flat_map file_scenarios after
  /\ snd r = flat_map file_log before
             ++ [Loading name; ErrorLoading name e]
             ++ flat_map file_log after
  /\ forall f, In f (before ++ after) -> In (Loading (file_name f)) (snd r).
Proof.
  intros bad r.
  assert (Hs : fst r
               = flat_map file_scenarios before
                 ++ flat_map file_scenarios after).
  { subst r. rewrite load_knowledge_files_scenarios, flat_map_app.
    reflexivity. }
  assert (Hl : snd r = flat_map file_log before
                       ++ [Loading name; ErrorLoading name e]
                       ++ flat_map file_log after).
  { subst r. destruct before as [|b before].
    - simpl ([] ++ bad :: after). rewrite load_knowledge_files_log.
      reflexivity.
    - simpl ((b :: before) ++ bad :: after).
      rewrite load_knowledge_files_log.
      change (b :: before ++ bad :: after)
        with ((b :: before) ++ bad :: after).
      rewrite flat_map_app. reflexivity. }
  repeat split; auto.
  - rewrite Hs, load_knowledge_files_scenarios, flat_map_app. reflexivity.
  - intros f Hin. rewrite Hl. apply in_app_or in Hin.
    destruct Hin as [Hin|Hin].
    + apply in_or_app. left. apply in_flat_map. exists f. split; auto.
      apply file_log_loading.
    + apply in_or_app. right. apply in_or_app. right.
      apply in_flat_map. exists f. split; auto. apply file_log_loading.
Qed.

(* ===================================================================== *)
(** ** The storage engine and the insertion loop *)
(* ===================================================================== *)

Section Engine.

Lemma sqlval_eqb_eq a b : sqlval_eqb a b = true <-> a = b.
Proof.
  destruct a, b; simpl; split; intros H;
    try discriminate; try reflexivity;
    try (apply Z.eqb_eq in H; now subst);
    try (apply String.eqb_eq in H; now subst);
    inversion H; subst;
    first [apply Z.eqb_refl | apply String.eqb_refl].
Qed.

Lemma existsb_id v rows :
  existsb (fun r => sqlval_eqb (k_id r) v) rows = true
  <-> In v (map k_id rows).
Proof.
  rewrite existsb_exists, in_map_iff. split.
  - intros [r [Hin He]]. apply sqlval_eqb_eq in He. eauto.
  - intros [r [He Hin]]. exists r. split; auto. now apply sqlval_eqb_eq.
Qed.

Lemma unique_id_cases v rows :
  (unique_id v rows = Ok tt /\ (v = SNull \/ ~ In v (map k_id rows)))
  \/ (unique_id v rows = Raise (IntegrityError UniqueFailed)
      /\ v <> SNull /\ In v (map k_id rows)).
Proof.
  destruct (existsb (fun r => sqlval_eqb (k_id r) v) rows) eqn:E.
  - destruct v; simpl; rewrite ?E;
      [left; auto | right | right | right];
      (split; [reflexivity | split; [discriminate | now apply existsb_id]]).
  - left. split.
    + destruct v; simpl; rewrite ?E; reflexivity.
    + right. intros Hin. apply existsb_id in Hin. congruence.
Qed.

Lemma check_row_unique new rows :
  check_row new rows = Ok tt -> unique_id (k_id new) rows = Ok tt.
Proof.
  unfold check_row, not_null, bind.
  destruct (k_category new), (k_keywords new), (k_context new),
    (k_priority new); auto; discriminate.
Qed.

(** In a row whose NOT NULL columns hold text, only the key is left to
    check. *)
Lemma check_row_text n i c k x p e rows :
  check_row (mk_krow n (SText i) (SText c) (SText k) (SText x) (SText p) e)
            rows
  = unique_id (SText i) rows.
Proof. reflexivity. Qed.

Lemma ids_unique_nil : ids_unique [].
Proof. intros [|i] j r1 r2 H; discriminate. Qed.

Lemma ids_unique_snoc rows new :
  ids_unique rows -> unique_id (k_id new) rows = Ok tt ->
  ids_unique (rows ++ [new]).
Proof.
  intros Hu Hc i j r1 r2 Hi Hj He Hn.
  assert (Hfresh : forall n r, nth_error rows n = Some r ->
                               k_id r = k_id new -> k_id r = SNull).
  { intros n r Hr Hk.
    destruct (unique_id_cases (k_id new) rows) as [[_ [H|H]]|[H _]].
    - congruence.
    - exfalso. apply H. rewrite <- Hk. apply in_map.
      eapply nth_error_In; eauto.
    - congruence. }
  destruct (Nat.lt_ge_cases i (List.length rows)) as [Li|Li];
    destruct (Nat.lt_ge_cases j (List.length rows)) as [Lj|Lj].
  - rewrite nth_error_app1 in Hi, Hj by assumption. eauto.
  - rewrite nth_error_app1 in Hi by assumption.
    rewrite nth_error_app2 in Hj by assumption.
    destruct (j - List.length rows) as [|m] eqn:Ej; simpl in Hj;
      [|destruct m; discriminate].
    inversion Hj; subst r2. exfalso. apply Hn. eauto.
  - rewrite nth_error_app2 in Hi by assumption.
    rewrite nth_error_app1 in Hj by assumption.
    destruct (i - List.length rows) as [|m] eqn:Ei; simpl in Hi;
      [|destruct m; discriminate].
    inversion Hi; subst r1. exfalso. apply Hn.
    rewrite He. symmetry in He. eauto.
  - rewrite nth_error_app2 in Hi, Hj by assumption.
    destruct (i - List.length rows) as [|m] eqn:Ei; simpl in Hi;
      [|destruct m; discriminate].
    destruct (j - List.length rows) as [|m] eqn:Ej; simpl in Hj;
      [|destruct m; discriminate].
    lia.
Qed.

Lemma insert_knowledge_loop a1 a2 a3 a4 a5 rows :
  insert_knowledge a1 a2 a3 a4 a5 (loop_db rows)
  = let new := mk_krow (next_rowid rows)
                       (text_affinity a1) (text_affinity a2)
                       (text_affinity a3) (text_affinity a4)
                       (text_affinity a5) SNull in
    _ <- check_row new rows ;; Ok (loop_db (rows ++ [new])).
Proof.
  unfold insert_knowledge. cbn [knowledge loop_db].
  cbv zeta. destruct (check_row _ rows) as [[]|e]; [|reflexivity].
  unfold bind, fire, loop_db, knowledge_ai_body, set_knowledge_fts,
    set_knowledge, has_trigger; simpl.
  now rewrite map_app.
Qed.

Lemma row_for_inv s n new :
  row_for s n = Ok new ->
  exists v1 v2 ks kw v4 v5 a1 a2 a4 a5,
    py_getitem s "id" = Ok v1 /\ py_getitem s "category" = Ok v2
    /\ py_getitem s "keywords" = Ok ks /\ py_join ", " ks = Ok kw
    /\ py_getitem s "context" = Ok v4 /\ py_getitem s "priority" = Ok v5
    /\ adapt v1 = Ok a1 /\ adapt v2 = Ok a2
    /\ adapt v4 = Ok a4 /\ adapt v5 = Ok a5
    /\ new = mk_krow n (text_affinity a1) (text_affinity a2) (SText kw)
                     (text_affinity a4) (text_affinity a5) SNull.
Proof.
  unfold row_for, bind.
  destruct (py_getitem s "id") as [v1|] eqn:E1; [|discriminate].
  destruct (py_getitem s "category") as [v2|] eqn:E2; [|discriminate].
  destruct (py_getitem s "keywords") as [ks|] eqn:E3; [|discriminate].
  destruct (py_join ", " ks) as [kw|] eqn:E4; [|discriminate].
  destruct (py_getitem s "context") as [v4|] eqn:E5; [|discriminate].
  destruct (py_getitem s "priority") as [v5|] eqn:E6; [|discriminate].
  destruct (adapt v1) as [a1|] eqn:E7; [|discriminate].
  destruct (adapt v2) as [a2|] eqn:E8; [|discriminate].
  cbn [adapt].
  destruct (adapt v4) as [a4|] eqn:E9; [|discriminate].
  destruct (adapt v5) as [a5|] eqn:E10; [|discriminate].
  intros H. inversion H. exists v1, v2, ks, kw, v4, v5, a1, a2, a4, a5.
  repeat split; auto.
Qed.

Lemma row_for_rowid s n new : row_for s n = Ok new -> k_rowid new = n.
Proof.
  intros H. apply row_for_inv in H.
  destruct H as (v1 & v2 & ks & kw & v4 & v5 & a1 & a2 & a4 & a5 & H).
  decompose [and] H. subst new. reflexivity.
Qed.

Lemma row_for_id s n new : row_for s n = Ok new -> k_id new = sql_id s.
Proof.
  intros H. apply row_for_inv in H.
  destruct H as (v1 & v2 & ks & kw & v4 & v5 & a1 & a2 & a4 & a5
                 & G1 & _ & _ & _ & _ & _ & A1 & _ & _ & _ & ->).
  unfold sql_id, id_of. rewrite G1. simpl. now rewrite A1.
Qed.

(** One pass through the loop body from a loop state. *)
Lemma insert_scenario_loop s c rows :
  working c = loop_db rows ->
  exists c' r,
    insert_scenario s c = (c', r) /\ committed c' = committed c /\
    match r with
    | Ok _ =>
        exists new,
          row_for s (next_rowid rows) = Ok new
          /\ check_row new rows = Ok tt
          /\ working c' = loop_db (rows ++ [new])
          /\ in_transaction c' = true
    | Raise e =>
        working c' = working c
        /\ (row_for s (next_rowid rows) = Raise e
            \/ exists new, row_for s (next_rowid rows) = Ok new
                           /\ check_row new rows = Raise e)
    end.
Proof.
  intros Hw.
  unfold insert_scenario, row_for, bindM, lift, bind.
  destruct (py_getitem s "id") as [v1|e];
    [|do 2 eexists; repeat split; auto].
  destruct (py_getitem s "category") as [v2|e];
    [|do 2 eexists; repeat split; auto].
  destruct (py_getitem s "keywords") as [ks|e];
    [|do 2 eexists; repeat split; auto].
  destruct (py_join ", " ks) as [kw|e];
    [|do 2 eexists; repeat split; auto].
  destruct (py_getitem s "context") as [v4|e];
    [|do 2 eexists; repeat split; auto].
  destruct (py_getitem s "priority") as [v5|e];
    [|do 2 eexists; repeat split; auto].
  unfold execute_dml, bind.
  destruct (adapt v1) as [a1|e];
    [|do 2 eexists; repeat split; auto].
  destruct (adapt v2) as [a2|e];
    [|do 2 eexists; repeat split; auto].
  cbn [adapt].
  destruct (adapt v4) as [a4|e];
    [|do 2 eexists; repeat split; auto].
  destruct (adapt v5) as [a5|e];
    [|do 2 eexists; repeat split; auto].
  cbn [working]. rewrite Hw, insert_knowledge_loop. cbv zeta.
  unfold bind.
  destruct (check_row _ rows) as [[]|e] eqn:Hc.
  - do 2 eexists. split; [reflexivity|]. split; [reflexivity|].
    eexists. repeat split; eauto.
  - do 2 eexists. split; [reflexivity|]. split; [reflexivity|].
    split; [reflexivity|]. right. eexists. split; eauto.
Qed.

(** The whole loop from a loop state: the committed contents never move,
    and when the loop returns every scenario has its row. *)
Lemma insert_scenarios_loop scenarios :
  forall c rows,
    working c = loop_db rows -> ids_unique rows ->
    exists c' r,
      insert_scenarios scenarios c = (c', r)
      /\ committed c' = committed c
      /\ match r with
         | Ok _ =>
             exists news,
               working c' = loop_db (rows ++ news)
               /\ stored_as scenarios news
               /\ ids_unique (rows ++ news)
         | Raise _ => exists rows', working c' = loop_db rows'
         end.
Proof.
  induction scenarios as [|s rest IH]; intros c rows Hw Hu.
  - exists c, (Ok tt). repeat split; auto.
    exists []. rewrite app_nil_r. repeat split; auto. constructor.
  - destruct (insert_scenario_loop s c rows Hw) as (c1 & r1 & E1 & C1 & R1).
    cbn [insert_scenarios]. unfold bindM at 1. rewrite E1.
    destruct r1 as [[]|e].
    + destruct R1 as (new & Hrow & Hchk & Hw1 & _).
      assert (Hu1 : ids_unique (rows ++ [new]))
        by (apply ids_unique_snoc; auto; now apply check_row_unique).
      destruct (IH c1 (rows ++ [new]) Hw1 Hu1) as (c2 & r2 & E2 & C2 & R2).
      exists c2, r2. split; [assumption|]. split; [congruence|].
      destruct r2 as [[]|e2]; auto.
      destruct R2 as (news & Hw2 & Hst & Hu2).
      exists (new :: news). rewrite <- app_assoc in Hw2, Hu2.
      repeat split; auto.
      constructor; auto.
      now rewrite (row_for_rowid _ _ _ Hrow).
    + exists c1, (Raise e). destruct R1 as [Hw1 _].
      repeat split; auto. exists rows. congruence.
Qed.

End Engine.

(* ===================================================================== *)
(** ** The builder as a whole *)
(* ===================================================================== *)

Section Builder.

(** The schema statements run on a fresh file, whatever was at the output
    path, and are committed one by one before the first INSERT. *)
Lemma create_database_from_schema out scenarios :
  create_database out scenarios
  = let '(conn, r) :=
      (insert_scenarios scenarios ;;;
       execute_ddl create_table_metadata ;;;
       execute_dml (Ok (insert_metadata (metadata_pairs scenarios))) ;;;
       commit) (mk_connection schema_db schema_db false) in
    (Some (committed conn), r).
Proof. destruct out; reflexivity. Qed.

(** After the loop: the metadata table, its four rows, and the commit. *)
Lemma finish_build rows scenarios c :
  working c = loop_db rows ->
  (execute_ddl create_table_metadata ;;;
   execute_dml (Ok (insert_metadata (metadata_pairs scenarios))) ;;;
   commit) c
  = (mk_connection (built_db rows scenarios) (built_db rows scenarios) false,
     Ok tt).
Proof.
  intros Hw. unfold bindM, execute_ddl. rewrite Hw.
  destruct (in_transaction c); reflexivity.
Qed.

(** The two ways a build can end: an exception with nothing but the
    schema committed, or a committed database holding one row per
    scenario, its mirror and the metadata. *)
Lemma create_database_cases out scenarios :
  (exists e, create_database out scenarios = (Some schema_db, Raise e))
  \/ (exists rows,
         create_database out scenarios
         = (Some (built_db rows scenarios), Ok tt)
         /\ stored_as scenarios rows /\ ids_unique rows).
Proof.
  rewrite create_database_from_schema.
  destruct (insert_scenarios_loop scenarios
              (mk_connection schema_db schema_db false) []
              eq_refl ids_unique_nil)
    as (c' & r & E & C & R).
  destruct r as [[]|e].
  - right. destruct R as (rows & Hw & Hst & Hu). simpl in Hw, Hu.
    exists rows. unfold bindM at 1. rewrite E. cbv beta iota.
    rewrite (finish_build rows scenarios c' Hw). auto.
  - left. exists e. unfold bindM at 1. rewrite E.
    simpl in C. now rewrite C.
Qed.

Lemma create_database_ok out scenarios f :
  create_database out scenarios = (f, Ok tt) ->
  exists rows,
    f = Some (built_db rows scenarios)
    /\ stored_as scenarios rows /\ ids_unique rows.
Proof.
  intros H.
  destruct (create_database_cases out scenarios)
    as [[e He]|(rows & Hr & Hst & Hu)]; rewrite H in *.
  - discriminate.
  - inversion Hr. eauto.
Qed.

Lemma create_database_raise out scenarios f e :
  create_database out scenarios = (f, Raise e) -> f = Some schema_db.
Proof.
  intros H.
  destruct (create_database_cases out scenarios)
    as [[e' He]|(rows & Hr & _)]; rewrite H in *.
  - now inversion He.
  - discriminate.
Qed.

Lemma Forall2_nth_error_l {A B} (R : A -> B -> Prop) l l' i a :
  Forall2 R l l' -> nth_error l i = Some a ->
  exists b, nth_error l' i = Some b /\ R a b.
Proof.
  intros H. revert i. induction H as [|x y l l' Hxy H IH]; intros i Hi.
  - destruct i; discriminate.
  - destruct i as [|i]; simpl in *.
    + inversion Hi; subst. eauto.
    + eauto.
Qed.

Lemma all_str_map kws : all_str (map PStr kws) = Ok kws.
Proof.
  induction kws as [|k kws IH]; simpl; [reflexivity|].
  now rewrite IH.
Qed.

Lemma py_join_strs sep kws :
  py_join sep (PList (map PStr kws)) = Ok (join sep kws).
Proof. unfold py_join. simpl. now rewrite all_str_map. Qed.

Lemma is_str_list_strs v :
  is_str_list v = true -> exists kws, v = PList (map PStr kws).
Proof.
  destruct v; simpl; try discriminate. intros H.
  induction l as [|x l IH]; simpl in H.
  - now exists [].
  - apply andb_prop in H. destruct H as [Hx Hl].
    destruct x; try discriminate.
    destruct (IH Hl) as [kws Hk]. inversion Hk; subst.
    now exists (s :: kws).
Qed.

Lemma has_field_str k d :
  has_field is_str k d = true -> exists s, dict_get k d = Some (PStr s).
Proof.
  unfold has_field. destruct (dict_get k d) as [v|]; [|discriminate].
  destruct v; try discriminate. eauto.
Qed.

(** A well-formed scenario is stored as a row of texts. *)
Lemma row_for_well_formed s n :
  well_formed s = true ->
  exists i c kws x p,
    id_of s = PStr i
    /\ py_getitem s "keywords" = Ok (PList (map PStr kws))
    /\ row_for s n
       = Ok (mk_krow n (SText i) (SText c) (SText (join ", " kws))
                     (SText x) (SText p) SNull).
Proof.
  destruct s; simpl; try discriminate. intros H.
  repeat (apply andb_prop in H; destruct H as [H ?]).
  destruct (has_field_str _ _ H) as [i Hi].
  destruct (has_field_str _ _ H0) as [c Hc].
  destruct (has_field_str _ _ H1) as [p Hp].
  destruct (has_field_str _ _ H2) as [x Hx].
  unfold has_field in H3.
  destruct (dict_get "keywords" d) as [ks|] eqn:Hk; [|discriminate].
  destruct (is_str_list_strs ks H3) as [kws ->].
  exists i, c, kws, x, p.
  unfold id_of, row_for, py_getitem. rewrite Hi, Hc, Hk, Hx, Hp.
  cbn [bind]. rewrite py_join_strs. auto.
Qed.

Lemma sql_id_well_formed s :
  well_formed s = true -> exists i, id_of s = PStr i /\ sql_id s = SText i.
Proof.
  intros H. destruct (row_for_well_formed s 0%Z H)
    as (i & c & kws & x & p & Hi & _ & _).
  exists i. split; auto. unfold sql_id. now rewrite Hi.
Qed.

(** One pass of the loop body on a well-formed scenario: it stores the
    row unless the id is already present. *)
Lemma insert_scenario_well_formed s c rows :
  working c = loop_db rows -> well_formed s = true ->
  (In (sql_id s) (map k_id rows)
   /\ exists c', insert_scenario s c
                 = (c', Raise (IntegrityError UniqueFailed)))
  \/ (~ In (sql_id s) (map k_id rows)
      /\ exists c' new,
          insert_scenario s c = (c', Ok tt)
          /\ working c' = loop_db (rows ++ [new])
          /\ k_id new = sql_id s).
Proof.
  intros Hw Hwf.
  destruct (row_for_well_formed s (next_rowid rows) Hwf)
    as (i & cat & kws & x & p & Hi & _ & Hrow).
  assert (Hsid : sql_id s = SText i) by (unfold sql_id; now rewrite Hi).
  destruct (insert_scenario_loop s c rows Hw) as (c' & r & E & _ & R).
  destruct r as [[]|e].
  - destruct R as (new & Hnew & Hchk & Hw' & _).
    rewrite Hrow in Hnew. inversion Hnew; subst new.
    rewrite check_row_text in Hchk.
    right. split.
    + rewrite Hsid.
      destruct (unique_id_cases (SText i) rows)
        as [[_ [?|?]]|[? _]]; [discriminate|assumption|congruence].
    + exists c'. eexists. repeat split; eauto.
  - destruct R as [_ [R|(new & Hnew & Hchk)]]; [congruence|].
    rewrite Hrow in Hnew. inversion Hnew; subst new.
    rewrite check_row_text in Hchk.
    destruct (unique_id_cases (SText i) rows)
      as [[? _]|(Hraise & _ & Hin)]; [congruence|].
    left. rewrite Hsid. split; auto.
    exists c'. congruence.
Qed.

Lemma insert_scenarios_distinct scenarios :
  forall c rows,
    working c = loop_db rows ->
    Forall (fun s => well_formed s = true) scenarios ->
    NoDup (map k_id rows ++ map sql_id scenarios) ->
    exists c', insert_scenarios scenarios c = (c', Ok tt).
Proof.
  induction scenarios as [|s rest IH]; intros c rows Hw Hwf Hnd.
  - exists c. reflexivity.
  - inversion Hwf as [|? ? Hs Hrest]; subst.
    cbn [insert_scenarios]. unfold bindM at 1.
    simpl in Hnd.
    destruct (insert_scenario_well_formed s c rows Hw Hs)
      as [[Hin _]|[_ (c' & new & E & Hw' & Hid)]].
    + exfalso. apply (NoDup_remove_2 _ _ _ Hnd).
      apply in_or_app. now left.
    + rewrite E. apply (IH c' (rows ++ [new]) Hw' Hrest).
      rewrite map_app. simpl. rewrite Hid, <- app_assoc. exact Hnd.
Qed.

Lemma insert_scenarios_duplicate scenarios :
  forall c rows,
    working c = loop_db rows ->
    Forall (fun s => well_formed s = true) scenarios ->
    NoDup (map k_id rows) ->
    ~ NoDup (map k_id rows ++ map sql_id scenarios) ->
    exists c', insert_scenarios scenarios c
               = (c', Raise (IntegrityError UniqueFailed)).
Proof.
  induction scenarios as [|s rest IH]; intros c rows Hw Hwf Hnd Hdup.
  - exfalso. apply Hdup. simpl. now rewrite app_nil_r.
  - inversion Hwf as [|? ? Hs Hrest]; subst.
    cbn [insert_scenarios]. unfold bindM at 1.
    destruct (insert_scenario_well_formed s c rows Hw Hs)
      as [[_ [c' E]]|[Hnin (c' & new & E & Hw' & Hid)]].
    + rewrite E. eauto.
    + rewrite E. apply (IH c' (rows ++ [new]) Hw' Hrest).
      * rewrite map_app. simpl. rewrite Hid.
        apply NoDup_app; auto.
        -- constructor; [intros []|constructor].
        -- intros a Ha [<-|[]]. contradiction.
      * rewrite map_app. simpl. rewrite Hid, <- app_assoc. exact Hdup.
Qed.

Lemma create_database_distinct out scenarios :
  Forall (fun s => well_formed s = true) scenarios ->
  NoDup (map sql_id scenarios) ->
  exists rows,
    create_database out scenarios = (Some (built_db rows scenarios), Ok tt)
    /\ stored_as scenarios rows.
Proof.
  intros Hwf Hnd.
  destruct (insert_scenarios_distinct scenarios
              (mk_connection schema_db schema_db false) [] eq_refl Hwf Hnd)
    as [c' E].
  destruct (create_database_cases out scenarios)
    as [[e He]|(rows & Hr & Hst & _)]; [|eauto].
  exfalso. rewrite create_database_from_schema in He.
  unfold bindM at 1 in He. rewrite E in He. cbv beta iota in He.
  destruct (insert_scenarios_loop scenarios
              (mk_connection schema_db schema_db false) []
              eq_refl ids_unique_nil)
    as (c2 & r2 & E2 & _ & R2).
  rewrite E in E2. inversion E2; subst c2 r2.
  destruct R2 as (rows & Hw & _).
  rewrite (finish_build rows scenarios c' Hw) in He. discriminate.
Qed.

Lemma create_database_duplicate out scenarios :
  Forall (fun s => well_formed s = true) scenarios ->
  ~ NoDup (map sql_id scenarios) ->
  create_database out scenarios
  = (Some schema_db, Raise (IntegrityError UniqueFailed)).
Proof.
  intros Hwf Hdup.
  destruct (insert_scenarios_duplicate scenarios
              (mk_connection schema_db schema_db false) [] eq_refl Hwf
              (NoDup_nil _) Hdup)
    as [c' E].
  destruct (create_database_cases out scenarios)
    as [[e He]|(rows & Hr & _)].
  - rewrite He. rewrite create_database_from_schema in He.
    unfold bindM at 1 in He. rewrite E in He. now inversion He.
  - rewrite create_database_from_schema in Hr.
    unfold bindM at 1 in Hr. rewrite E in Hr. discriminate.
Qed.

(** [main] once the directory exists: the verifier never fails on a
    database the builder has committed. *)
Lemma main_cases files out :
  main (Some files) out
  = match fst (load_knowledge_files files) with
    | [] => (out, Exited 1)
    | s :: rest =>
        match create_database out (s :: rest) with
        | (f, Raise e) => (f, Uncaught e)
        | (f, Ok _) => (f, Exited 0)
        end
    end.
Proof.
  unfold main.
  destruct (fst (load_knowledge_files files)) as [|s rest]; [reflexivity|].
  destruct (create_database_cases out (s :: rest))
    as [[e He]|(rows & Hr & _)].
  - now rewrite He.
  - now rewrite Hr.
Qed.

Lemma same_id_same_sql_id a b : id_of a = id_of b -> sql_id a = sql_id b.
Proof. unfold sql_id. now intros ->. Qed.

Lemma duplicate_not_NoDup scenarios i j a b :
  i < j -> nth_error scenarios i = Some a -> nth_error scenarios j = Some b ->
  id_of a = id_of b -> ~ NoDup (map sql_id scenarios).
Proof.
  intros Hij Ha Hb Hid Hnd.
  rewrite NoDup_nth_error in Hnd.
  assert (Hlen : i < List.length (map sql_id scenarios)).
  { rewrite length_map. apply nth_error_Some. congruence. }
  specialize (Hnd i j Hlen).
  rewrite !nth_error_map, Ha, Hb in Hnd. simpl in Hnd.
  rewrite (same_id_same_sql_id a b Hid) in Hnd.
  specialize (Hnd eq_refl). lia.
Qed.

End Builder.

(* ===================================================================== *)
(** ** Properties of the builder and of [main] *)
(* ===================================================================== *)

(** C2. When the scenario list holds the same string id at two positions,
    the build raises and the run aborts with that exception; the
    exception is the uniqueness violation whenever the scenarios are
    shaped as the data model says; and because the commit is never
    reached the output file holds the schema only: no [knowledge] row and
    no [metadata] table. *)
Theorem duplicate_id_aborts_uncommitted out scenarios i j a b :
  i < j ->
  nth_error scenarios i = Some a -> nth_error scenarios j = Some b ->
  id_of a = id_of b -> is_str (id_of a) = true ->
  (exists e,
      create_database out scenarios = (Some schema_db, Raise e)
      /\ (Forall (fun s => well_formed s = true) scenarios ->
          e = IntegrityError UniqueFailed)
      /\ (forall files,
             fst (load_knowledge_files files) = scenarios ->
             main (Some files) out = (Some schema_db, Uncaught e)))
  /\ knowledge schema_db = Some [] /\ metadata schema_db = None.
Proof.
  intros Hij Ha Hb Hid Hstr. split; [|split; reflexivity].
  destruct (create_database_cases out scenarios)
    as [[e He]|(rows & Hr & Hst & Hu)].
  - exists e. split; [assumption|]. split.
    + intros Hwf.
      rewrite (create_database_duplicate out scenarios Hwf
                 (duplicate_not_NoDup scenarios i j a b Hij Ha Hb Hid))
        in He.
      now inversion He.
    + intros files Hl. rewrite main_cases, Hl.
      destruct scenarios as [|s rest]; [destruct i; discriminate|].
      now rewrite He.
  - exfalso.
    destruct (Forall2_nth_error_l _ _ _ _ _ Hst Ha) as (ra & Hra & Sa).
    destruct (Forall2_nth_error_l _ _ _ _ _ Hst Hb) as (rb & Hrb & Sb).
    apply row_for_id in Sa, Sb.
    assert (Hnn : k_id ra <> SNull).
    { rewrite Sa. unfold sql_id. destruct (id_of a); discriminate. }
    assert (Hsame : k_id ra = k_id rb)
      by (rewrite Sa, Sb; now apply same_id_same_sql_id).
    specialize (Hu i j ra rb Hra Hrb Hsame Hnn). lia.
Qed.

Lemma duplicate_id_aborts_uncommitted_witness :
  let s1 := PDict [("id", PStr "fire-01");
                   ("keywords", PList [PStr "smoke"; PStr "flame"]);
                   ("context", PStr "..."); ("priority", PStr "high");
                   ("category", PStr "fire")] in
  let s2 := PDict [("id", PStr "fire-01"); ("keywords", PList []);
                   ("context", PStr "!"); ("priority", PStr "low");
                   ("category", PStr "unknown")] in
  create_database None [s1; s2]
  = (Some schema_db, Raise (IntegrityError UniqueFailed)).
Proof.
  intros s1 s2.
  destruct (duplicate_id_aborts_uncommitted None [s1; s2] 0 1 s1 s2
              (le_n 1) eq_refl eq_refl eq_refl eq_refl)
    as [[e [He [Hwf _]]] _].
  rewrite He, Hwf; [reflexivity|].
  repeat constructor.
Defined.

(** C4. The builder deletes whatever file is at the output path and
    builds on a fresh one: its result does not depend on the old file,
    the rows it commits are the scenarios of this run only, and running
    the tool again on the file it left gives the same result. *)
Theorem regeneration_replaces_old_file :
  (forall old scenarios,
      create_database (Some old) scenarios = create_database None scenarios)
  /\ (forall old scenarios f,
         create_database (Some old) scenarios = (f, Ok tt) ->
         exists d, f = Some d /\ row_count d = List.length scenarios)
  /\ (forall files old,
         fst (load_knowledge_files files) <> [] ->
         main (Some files) (Some old) = main (Some files) None)
  /\ (forall dir out, main dir (fst (main dir out)) = main dir out).
Proof.
  assert (Hany : forall out out' scenarios,
             create_database out scenarios = create_database out' scenarios)
    by (intros; now rewrite !create_database_from_schema).
  split; [intros; apply Hany|]. split; [|split].
  - intros old scenarios f H.
    destruct (create_database_ok _ _ _ H) as (rows & -> & Hst & _).
    eexists. split; [reflexivity|]. unfold row_count. simpl.
    symmetry. exact (Forall2_length Hst).
  - intros files old Hne. rewrite !main_cases.
    destruct (fst (load_knowledge_files files)) as [|s rest];
      [congruence|].
    now rewrite (Hany (Some old) None).
  - intros [files|] out; [|reflexivity].
    rewrite !main_cases.
    destruct (fst (load_knowledge_files files)) as [|s rest];
      [reflexivity|].
    now rewrite (Hany _ out).
Qed.

Lemma regeneration_replaces_old_file_witness :
  let files :=
    [mk_file "fire.json"
       (Parsed (PDict [("category", PStr "fire");
                       ("scenarios",
                        PList [PDict [("id", PStr "fire-01");
                                      ("keywords", PList [PStr "smoke"]);
                                      ("context", PStr "...");
                                      ("priority", PStr "high")]])]))] in
  main (Some files) (Some (built_db [] [])) = main (Some files) None
  /\ exists d, fst (main (Some files) (Some (built_db [] []))) = Some d
               /\ row_count d = 1.
Proof.
  intros files.
  destruct regeneration_replaces_old_file as (_ & _ & H & _).
  split.
  - apply (H files (built_db [] [])).
    intros Hnil. vm_compute in Hnil. discriminate Hnil.
  - vm_compute. eexists. split; reflexivity.
Defined.

(** C5. A missing input directory, a directory without JSON files, and
    any directory from which no scenario is loaded each end the process
    with status 1 and leave the output path as it was; a run whose build
    returns ends with status 0, and only such a run does. *)
Theorem exit_status_of_main out :
  main None out = (out, Exited 1)
  /\ main (Some []) out = (out, Exited 1)
  /\ (forall files,
         fst (load_knowledge_files files) = [] ->
         main (Some files) out = (out, Exited 1))
  /\ (forall files f,
         fst (load_knowledge_files files) <> [] ->
         create_database out (fst (load_knowledge_files files)) = (f, Ok tt) ->
         main (Some files) out = (f, Exited 0))
  /\ (forall dir f o,
         main dir out = (f, o) -> exit_status o = 0%Z ->
         exists files,
           dir = Some files
           /\ fst (load_knowledge_files files) <> []
           /\ create_database out (fst (load_knowledge_files files))
              = (f, Ok tt)).
Proof.
  split; [reflexivity|]. split; [reflexivity|]. split; [|split].
  - intros files H. now rewrite main_cases, H.
  - intros files f Hne H. rewrite main_cases.
    destruct (fst (load_knowledge_files files)) as [|s rest];
      [congruence|].
    now rewrite H.
  - intros [files|] f o H Hs.
    + exists files. split; [reflexivity|].
      rewrite main_cases in H.
      destruct (fst (load_knowledge_files files)) as [|s rest].
      * inversion H; subst. discriminate.
      * split; [discriminate|].
        destruct (create_database out (s :: rest)) as [f' [[]|e]];
          inversion H; subst; [reflexivity|discriminate].
    + inversion H; subst. discriminate.
Qed.

Lemma exit_status_of_main_witness :
  main (Some [mk_file "bad.json" (LoadError JSONDecodeError);
              mk_file "none.json" (Parsed (PDict [("category", PStr "x")]))])
       None
  = (None, Exited 1)
  /\ snd (main (Some [mk_file "fire.json"
                        (Parsed (PDict
                           [("scenarios",
                             PList [PDict [("id", PStr "a");
                                           ("keywords", PList []);
                                           ("context", PStr "c");
                                           ("priority", PStr "p")]])]))])
               None)
     = Exited 0.
Proof.
  destruct (exit_status_of_main None) as (_ & _ & H1 & H2 & _).
  split.
  - apply H1. vm_compute. reflexivity.
  - match goal with
    | |- snd (main (Some ?files) None) = _ =>
        rewrite (H2 files
                    (fst (create_database None
                            (fst (load_knowledge_files files)))))
    end.
    + reflexivity.
    + intros Hnil. vm_compute in Hnil. discriminate Hnil.
    + vm_compute. reflexivity.
Defined.

(** C6. In every database a build commits, the row of each scenario has
    a NULL [embedding], and its [keywords] column is the scenario's
    keyword strings joined with comma and space. *)
Theorem keywords_joined_embedding_null out scenarios f :
  create_database out scenarios = (f, Ok tt) ->
  exists d rows,
    f = Some d /\ knowledge d = Some rows
    /\ Forall2 (fun s row =>
                  k_embedding row = SNull
                  /\ (exists ks kw,
                         py_getitem s "keywords" = Ok ks
                         /\ py_join ", " ks = Ok kw
                         /\ k_keywords row = SText kw)
                  /\ forall kws,
                      py_getitem s "keywords" = Ok (PList (map PStr kws)) ->
                      k_keywords row = SText (join ", " kws))
               scenarios rows.
Proof.
  intros H. destruct (create_database_ok _ _ _ H) as (rows & -> & Hst & _).
  exists (built_db rows scenarios), rows.
  split; [reflexivity|]. split; [reflexivity|].
  eapply Forall2_impl; [|exact Hst].
  intros s row Hrow. cbv beta in Hrow. apply row_for_inv in Hrow.
  destruct Hrow as (v1 & v2 & ks & kw & v4 & v5 & a1 & a2 & a4 & a5
                    & _ & _ & Hks & Hj & _ & _ & _ & _ & _ & _ & ->).
  split; [reflexivity|]. split; [exists ks, kw; auto|].
  intros kws Hk. rewrite Hk in Hks. inversion Hks; subst ks.
  rewrite py_join_strs in Hj. inversion Hj. reflexivity.
Qed.

Lemma keywords_joined_embedding_null_witness :
  exists d rows,
    fst (create_database None
           [PDict [("id", PStr "fire-01");
                   ("keywords", PList [PStr "smoke"; PStr "flame"]);
                   ("context", PStr "..."); ("priority", PStr "high");
                   ("category", PStr "fire")]]) = Some d
    /\ knowledge d = Some rows
    /\ map k_keywords rows = [SText "smoke, flame"]
    /\ map k_embedding rows = [SNull].
Proof.
  match goal with
  | |- exists d rows, fst (create_database None ?l) = _ /\ _ =>
      assert (E : create_database None l
                  = (fst (create_database None l), Ok tt))
        by (vm_compute; reflexivity);
      destruct (keywords_joined_embedding_null None l _ E)
        as (d & rows & Hd & Hk & _)
  end.
  exists d, rows. split; [exact Hd|]. split; [exact Hk|].
  vm_compute in Hd. inversion Hd; subst d.
  vm_compute in Hk. inversion Hk; subst rows.
  split; reflexivity.
Defined.

(** C9. The metadata table of every database a build commits holds
    exactly the four pairs model_name, embedding_dim, version and
    total_scenarios, the last being the decimal text of the row count of
    [knowledge], which is the number of scenarios given to the build. *)
Theorem metadata_after_build out scenarios f :
  create_database out scenarios = (f, Ok tt) ->
  exists d,
    f = Some d
    /\ metadata d = Some [ ("model_name", "keyword-only");
                           ("embedding_dim", "0");
                           ("version", "1.0-basic");
                           ("total_scenarios", str_of_nat (row_count d)) ]
    /\ row_count d = List.length scenarios.
Proof.
  intros H. destruct (create_database_ok _ _ _ H) as (rows & -> & Hst & _).
  assert (Hlen : List.length rows = List.length scenarios)
    by (symmetry; exact (Forall2_length Hst)).
  eexists. split; [reflexivity|]. unfold row_count. simpl.
  split; [|assumption]. unfold metadata_pairs. now rewrite Hlen.
Qed.

Lemma metadata_after_build_witness :
  exists d,
    fst (create_database None
           [PDict [("id", PStr "a"); ("keywords", PList []);
                   ("context", PStr "c"); ("priority", PStr "p");
                   ("category", PStr "unknown")];
            PDict [("id", PStr "b"); ("keywords", PList [PStr "k"]);
                   ("context", PStr "c"); ("priority", PStr "p");
                   ("category", PStr "unknown")]]) = Some d
    /\ metadata d = Some [ ("model_name", "keyword-only");
                           ("embedding_dim", "0");
                           ("version", "1.0-basic");
                           ("total_scenarios", "2") ]
    /\ row_count d = 2.
Proof.
  match goal with
  | |- exists d, fst (create_database None ?l) = _ /\ _ =>
      assert (E : create_database None l
                  = (fst (create_database None l), Ok tt))
        by (vm_compute; reflexivity);
      destruct (metadata_after_build None l _ E) as (d & Hd & Hm & Hc)
  end.
  exists d. split; [exact Hd|]. split; [|exact Hc].
  rewrite Hm, Hc. reflexivity.
Defined.

(* ===================================================================== *)
(** ** Valid input directories *)
(* ===================================================================== *)

Section ValidDirectory.

Lemma id_of_tagged c s : id_of (tagged c s) = id_of s.
Proof.
  destruct s; try reflexivity.
  unfold tagged, id_of. simpl.
  rewrite dict_get_set_other by discriminate. reflexivity.
Qed.

Lemma tagged_well_formed c s :
  scenario_object_ok s = true -> is_str c = true ->
  well_formed (tagged c s) = true.
Proof.
  destruct s; simpl; try discriminate. intros Hs Hc.
  unfold has_field at 5. rewrite dict_get_set_same, Hc.
  rewrite !has_field_set_other by discriminate.
  now rewrite Hs.
Qed.

Lemma tag_scenarios_objects c l acc :
  forallb scenario_object_ok l = true ->
  tag_scenarios c l acc = (acc ++ map (tagged c) l, None).
Proof.
  revert acc. induction l as [|s l IH]; intros acc H; simpl in *.
  - now rewrite app_nil_r.
  - apply andb_prop in H. destruct H as [Hs Hl].
    destruct s; try discriminate. simpl.
    rewrite (IH _ Hl), <- app_assoc. reflexivity.
Qed.

(** A file of a valid directory contributes its scenario objects, each
    tagged with a string category. *)
Lemma file_ok_scenarios f :
  file_ok f = true ->
  exists c,
    is_str c = true
    /\ file_scenarios f = map (tagged c) (scenario_objects f)
    /\ forallb scenario_object_ok (scenario_objects f) = true.
Proof.
  destruct f as [name [e|data]]; unfold file_ok, scenario_objects; simpl.
  - intros _. exists (PStr EmptyString). auto.
  - destruct data; try discriminate. intros H.
    apply andb_prop in H. destruct H as [Hc Hs].
    exists (file_category d). split; [assumption|].
    unfold file_scenarios, load_file. simpl. rewrite load_parsed_dict.
    destruct (dict_get "scenarios" d) as [v|]; [|auto].
    destruct v; try discriminate. simpl.
    rewrite (tag_scenarios_objects _ _ _ Hs). auto.
Qed.

Lemma valid_loaded files :
  forallb file_ok files = true ->
  Forall (fun s => well_formed s = true) (flat_map file_scenarios files)
  /\ map id_of (flat_map file_scenarios files)
     = map id_of (flat_map scenario_objects files).
Proof.
  induction files as [|f files IH]; simpl; intros H.
  - split; [constructor|reflexivity].
  - apply andb_prop in H. destruct H as [Hf Hfs].
    destruct (IH Hfs) as [IH1 IH2].
    destruct (file_ok_scenarios f Hf) as (c & Hc & Hsc & Hok).
    rewrite Hsc. split.
    + apply Forall_app. split; [|assumption].
      apply Forall_forall. intros s Hin. apply in_map_iff in Hin.
      destruct Hin as (s0 & <- & Hin0).
      apply tagged_well_formed; [|assumption].
      rewrite forallb_forall in Hok. auto.
    + rewrite !map_app, IH2, map_map. f_equal.
      apply map_ext. intros s. apply id_of_tagged.
Qed.

(** Distinct ids stay distinct in the store when they are strings. *)
Lemma sql_id_NoDup l :
  Forall (fun s => well_formed s = true) l ->
  NoDup (map id_of l) -> NoDup (map sql_id l).
Proof.
  induction l as [|s l IH]; simpl; intros Hwf Hnd; [constructor|].
  inversion Hwf as [|? ? Hs Hl]; subst.
  inversion Hnd as [|? ? Hnin Hnd']; subst.
  constructor; [|auto].
  intros Hin. apply Hnin. apply in_map_iff in Hin.
  destruct Hin as (s' & He & Hin'). apply in_map_iff. exists s'.
  split; [|assumption].
  rewrite Forall_forall in Hl.
  destruct (sql_id_well_formed s Hs) as (i & Hi & Hq).
  destruct (sql_id_well_formed s' (Hl s' Hin')) as (i' & Hi' & Hq').
  congruence.
Qed.

Lemma is_dict_dicts l :
  forallb is_dict l = true -> exists ds, l = map PDict ds.
Proof.
  induction l as [|x l IH]; simpl; intros H.
  - now exists [].
  - apply andb_prop in H. destruct H as [Hx Hl].
    destruct x; try discriminate.
    destruct (IH Hl) as [ds ->]. now exists (d :: ds).
Qed.

(** Strings are not scenarios: the loop stops at the first one. *)
Lemma tag_scenarios_strs c l :
  fst (tag_scenarios c (map PStr l) []) = [].
Proof. destruct l; reflexivity. Qed.

Lemma tag_scenarios_keys c (d : list (string * pyval)) :
  fst (tag_scenarios c (map (fun kv => PStr (fst kv)) d) []) = [].
Proof. destruct d; reflexivity. Qed.

(** A file whose scenarios are all objects has every one of them
    loaded. *)
Lemma objects_only_length f :
  objects_only f = true ->
  List.length (file_scenarios f) = List.length (scenario_objects f).
Proof.
  destruct f as [name [e|data]]; unfold objects_only, scenario_objects;
    simpl; [reflexivity|].
  destruct data; try reflexivity.
  unfold file_scenarios, load_file. simpl. rewrite load_parsed_dict.
  destruct (dict_get "scenarios" d) as [v|]; [|reflexivity].
  destruct v; try reflexivity; simpl.
  - pose proof (tag_scenarios_strs (file_category d) (chars s)) as E.
    destruct (tag_scenarios _ _ _) as [added [e|]]; simpl in *; now subst.
  - intros H. destruct (is_dict_dicts l H) as [ds ->].
    rewrite tag_scenarios_dicts. simpl. now rewrite !length_map.
  - pose proof (tag_scenarios_keys (file_category d) d0) as E.
    destruct (tag_scenarios _ _ _) as [added [e|]]; simpl in *; now subst.
Qed.

Lemma objects_only_loaded files :
  forallb objects_only files = true ->
  List.length (fst (load_knowledge_files files))
  = total_scenario_objects files.
Proof.
  rewrite load_knowledge_files_scenarios. unfold total_scenario_objects.
  induction files as [|f files IH]; simpl; intros H; [reflexivity|].
  apply andb_prop in H. destruct H as [Hf Hfs].
  now rewrite !length_app, (objects_only_length f Hf), (IH Hfs).
Qed.

Lemma scenario_object_is_dict s :
  scenario_object_ok s = true -> is_dict s = true.
Proof. destruct s; simpl; auto; discriminate. Qed.

Lemma file_ok_objects_only f : file_ok f = true -> objects_only f = true.
Proof.
  intros H. destruct (file_ok_scenarios f H) as (_ & _ & _ & Hok).
  unfold objects_only. rewrite forallb_forall in *.
  intros s Hs. apply scenario_object_is_dict. auto.
Qed.

Lemma valid_objects_only files :
  forallb file_ok files = true -> forallb objects_only files = true.
Proof.
  rewrite !forallb_forall. intros H f Hf.
  apply file_ok_objects_only. auto.
Qed.

End ValidDirectory.

(** C1. When every scenario of every file is an object, a run that ends
    with status 0 leaves a database whose [knowledge] table has as many
    rows as there are scenario objects in the JSON files, each scenario
    stored as its own row; and for a valid input directory (the objects
    have the required fields, all ids are distinct) with at least one
    scenario object the run does end with status 0 and that row count. *)
Theorem knowledge_rows_match_scenarios files out :
  (forallb objects_only files = true ->
   forall f,
     main (Some files) out = (f, Exited 0) ->
     exists d rows,
       f = Some d /\ knowledge d = Some rows
       /\ stored_as (fst (load_knowledge_files files)) rows
       /\ row_count d = total_scenario_objects files)
  /\ (valid_directory files ->
      0 < total_scenario_objects files ->
      exists d,
        main (Some files) out = (Some d, Exited 0)
        /\ row_count d = total_scenario_objects files).
Proof.
  assert (Hrun : forallb objects_only files = true ->
                 forall f,
                   main (Some files) out = (f, Exited 0) ->
                   exists d rows,
                     f = Some d /\ knowledge d = Some rows
                     /\ stored_as (fst (load_knowledge_files files)) rows
                     /\ row_count d = total_scenario_objects files).
  { intros Hobj f H. pose proof (objects_only_loaded files Hobj) as Hlen.
    rewrite main_cases in H.
    destruct (fst (load_knowledge_files files)) as [|s rest] eqn:El;
      [discriminate|].
    destruct (create_database out (s :: rest)) as [f' [[]|e]] eqn:Ec;
      [|discriminate].
    inversion H; subst f'.
    destruct (create_database_ok _ _ _ Ec) as (rows & -> & Hst & _).
    exists (built_db rows (s :: rest)), rows.
    repeat split; auto.
    unfold row_count. simpl (knowledge _).
    rewrite <- Hlen. symmetry. exact (Forall2_length Hst). }
  split; [exact Hrun|].
  intros [Hok Hnd] Hpos.
  pose proof (valid_objects_only files Hok) as Hobj.
  pose proof (objects_only_loaded files Hobj) as Hlen.
  destruct (valid_loaded files Hok) as [Hwf Hids].
  rewrite <- load_knowledge_files_scenarios in Hwf, Hids.
  rewrite <- Hids in Hnd.
  destruct (create_database_distinct out _ Hwf (sql_id_NoDup _ Hwf Hnd))
    as (rows & Hc & Hst).
  assert (Hmain : main (Some files) out
                  = (Some (built_db rows (fst (load_knowledge_files files))),
                     Exited 0)).
  { rewrite main_cases.
    destruct (fst (load_knowledge_files files)) as [|s rest] eqn:El.
    - simpl in Hlen. lia.
    - now rewrite Hc. }
  eexists. split; [exact Hmain|].
  destruct (Hrun Hobj _ Hmain) as (d & rows' & Hd & _ & _ & Hrc).
  inversion Hd; subst d. exact Hrc.
Qed.

Lemma knowledge_rows_match_scenarios_witness :
  let obj i := PDict [("id", PStr i); ("keywords", PList [PStr "k"]);
                      ("context", PStr "c"); ("priority", PStr "p")] in
  let files :=
    [mk_file "fire.json"
       (Parsed (PDict [("category", PStr "fire");
                       ("scenarios", PList [obj "fire-01"; obj "fire-02"])]));
     mk_file "broken.json" (LoadError JSONDecodeError);
     mk_file "water.json"
       (Parsed (PDict [("scenarios", PList [obj "water-01"])]))] in
  exists d, main (Some files) None = (Some d, Exited 0) /\ row_count d = 3.
Proof.
  intros obj files.
  assert (Hvalid : valid_directory files).
  { split; [vm_compute; reflexivity|]. vm_compute.
    repeat (constructor; [simpl; intuition discriminate|]). constructor. }
  destruct (knowledge_rows_match_scenarios files None) as [_ H].
  destruct (H Hvalid) as (d & Hm & Hr).
  - vm_compute. repeat constructor.
  - exists d. split; [exact Hm|]. rewrite Hr. vm_compute. reflexivity.
Defined.

(* ===================================================================== *)
(** ** The synchronization triggers *)
(* ===================================================================== *)

Section Triggers.

(** A row insert, with its trigger, keeps the index in step. *)
Lemma insert_synchronized d o :
  has_trigger knowledge_ai d = true -> fts_consistent d ->
  is_insert o = true ->
  fts_consistent (step d o) /\ triggers (step d o) = triggers d.
Proof.
  intros Hai (rows & Hk & Hf) Ho.
  destruct d as [k f t i m]. simpl in Hk, Hf. subst k f.
  unfold has_trigger in Hai. cbn [triggers] in *.
  assert (Hsame : fts_consistent
                    (mk_db (Some rows) (Some (map mirror rows)) t i m))
    by (exists rows; auto).
  destruct o as [a1 a2 a3 a4 a5| |]; try discriminate Ho.
  unfold step. cbn [run_op].
  unfold insert_knowledge. cbn [knowledge]. cbv zeta.
  destruct (check_row _ rows) as [[]|e]; cbn [bind]; [|auto].
  unfold fire, has_trigger, set_knowledge. cbn [triggers].
  rewrite Hai. unfold knowledge_ai_body, set_knowledge_fts.
  cbn [knowledge_fts knowledge triggers indexes metadata].
  split; [|reflexivity].
  eexists. split; [reflexivity|]. cbn [knowledge_fts].
  now rewrite map_app.
Qed.

Lemma inserts_synchronized ops :
  forall d,
    has_trigger knowledge_ai d = true -> fts_consistent d ->
    forallb is_insert ops = true ->
    fts_consistent (run_ops ops d).
Proof.
  induction ops as [|o ops IH]; intros d Ht Hc Hops; [assumption|].
  simpl in Hops. apply andb_prop in Hops. destruct Hops as [Ho Hops].
  destruct (insert_synchronized d o Ht Hc Ho) as [Hc' Ht'].
  apply IH; [|assumption|assumption].
  unfold has_trigger in *. now rewrite Ht'.
Qed.

Lemma fts_consistent_loop_db rows : fts_consistent (loop_db rows).
Proof. exists rows. auto. Qed.

Lemma fts_consistent_built_db rows scenarios :
  fts_consistent (built_db rows scenarios).
Proof. exists rows. auto. Qed.

End Triggers.

(** C3. The mirror does not stay consistent under every operation.  On
    the database the build leaves for the scenario fire-01, which is
    consistent, deleting the row leaves [knowledge] empty and the index
    still holding the entry of fire-01; and changing the row's keywords
    to ash leaves the index holding the old entry beside the new one.
    The delete and update triggers address the rows of [knowledge_fts],
    which are those of [knowledge] after the change. *)
Theorem fts_triggers_leave_stale_entries :
  let scenario := PDict [("id", PStr "fire-01");
                         ("keywords", PList [PStr "smoke"; PStr "flame"]);
                         ("context", PStr "..."); ("priority", PStr "high");
                         ("category", PStr "fire")] in
  let stale := mk_ftsrow 1 (SText "fire-01") (SText "fire")
                         (SText "smoke, flame") (SText "...") in
  exists d0,
    create_database None [scenario] = (Some d0, Ok tt)
    /\ triggers_installed d0 = true
    /\ fts_consistent d0
    /\ (let d1 := step d0 (OpDelete 1) in
        knowledge d1 = Some []
        /\ knowledge_fts d1 = Some [stale]
        /\ ~ fts_consistent d1)
    /\ (let d2 := step d0 (OpUpdate 1 (SText "fire-01") (SText "fire")
                                    (SText "ash") (SText "...")
                                    (SText "high") SNull) in
        knowledge d2
        = Some [mk_krow 1 (SText "fire-01") (SText "fire") (SText "ash")
                        (SText "...") (SText "high") SNull]
        /\ knowledge_fts d2
           = Some [stale;
                   mk_ftsrow 1 (SText "fire-01") (SText "fire")
                             (SText "ash") (SText "...")]
        /\ ~ fts_consistent d2).
Proof.
  intros scenario stale.
  eexists. split; [vm_compute; reflexivity|].
  split; [vm_compute; reflexivity|].
  split; [eexists; split; vm_compute; reflexivity|].
  split.
  - cbv zeta. split; [vm_compute; reflexivity|].
    split; [vm_compute; reflexivity|].
    intros (rows & Hk & Hf). vm_compute in Hk. inversion Hk; subst rows.
    vm_compute in Hf. discriminate Hf.
  - cbv zeta. split; [vm_compute; reflexivity|].
    split; [vm_compute; reflexivity|].
    intros (rows & Hk & Hf). vm_compute in Hk. inversion Hk; subst rows.
    vm_compute in Hf. discriminate Hf.
Qed.

(* ===================================================================== *)
(** ** The category of a stored scenario *)
(* ===================================================================== *)

Lemma stored_row_origin scenarios rows row :
  stored_as scenarios rows -> In row rows ->
  exists s, In s scenarios /\ row_for s (k_rowid row) = Ok row.
Proof.
  intros H. induction H as [|s r ss rs Hsr H IH]; intros Hin.
  - destruct Hin.
  - destruct Hin as [<-|Hin].
    + exists s. split; [now left|assumption].
    + destruct (IH Hin) as (s' & Hs' & Hr). exists s'.
      split; [now right|assumption].
Qed.

Lemma objects_only_own_category f :
  objects_only f = true ->
  file_scenarios f = map (tagged (category_of f)) (scenario_objects f).
Proof.
  destruct f as [name [e|data]];
    unfold objects_only, scenario_objects, category_of;
    simpl; [reflexivity|].
  destruct data; try reflexivity.
  unfold file_scenarios, load_file. simpl. rewrite load_parsed_dict.
  destruct (dict_get "scenarios" d) as [v|]; [|reflexivity].
  destruct v; try reflexivity; simpl.
  - pose proof (tag_scenarios_strs (file_category d) (chars s)) as E.
    destruct (tag_scenarios _ _ _) as [added [e|]]; simpl in *; now subst.
  - intros H. destruct (is_dict_dicts l H) as [ds ->].
    rewrite tag_scenarios_dicts. simpl. rewrite map_map. reflexivity.
  - pose proof (tag_scenarios_keys (file_category d) d0) as E.
    destruct (tag_scenarios _ _ _) as [added [e|]]; simpl in *; now subst.
Qed.

Lemma Forall2_map_const {A B} (R : A -> B -> Prop) l b :
  (forall a, In a l -> R a b) -> Forall2 R l (map (fun _ => b) l).
Proof.
  induction l as [|a l IH]; intros H; simpl; constructor.
  - apply H. now left.
  - apply IH. intros a' Ha'. apply H. now right.
Qed.

Lemma Forall2_compose {A B C} (R : A -> B -> Prop) (S : A -> C -> Prop)
      l1 l2 l3 :
  Forall2 R l1 l2 -> Forall2 S l1 l3 ->
  Forall2 (fun b c => exists a, R a b /\ S a c) l2 l3.
Proof.
  intros H. revert l3. induction H as [|a b l1 l2 Hab H IH]; intros l3 H3.
  - inversion H3. constructor.
  - inversion H3; subst. constructor; eauto.
Qed.

(** Scenario by scenario, in order: each comes from its enclosing file
    and carries that file's category. *)
Lemma loaded_enclosing files :
  forall all,
    (forall f, In f files -> In f all) ->
    Forall2 (fun s f =>
               In f all /\ In s (file_scenarios f)
               /\ exists d, content f = Parsed (PDict d)
                            /\ py_getitem s "category"
                               = Ok (file_category d))
            (flat_map file_scenarios files) (enclosing_files files).
Proof.
  induction files as [|f files IH]; intros all Hall; [constructor|].
  unfold enclosing_files. cbn [flat_map]. apply Forall2_app.
  - apply Forall2_map_const. intros s Hs.
    split; [apply Hall; now left|]. split; [assumption|].
    exact (file_scenarios_category f s Hs).
  - apply IH. intros f' Hf'. apply Hall. now right.
Qed.

(** C10. The loader replaces the category of every scenario by that of
    the enclosing file (or ["unknown"]), whatever category the scenario
    object carried: each file adds its scenarios to any accumulator, the
    scenarios of a directory are those its files add in order, and each
    of them, and the row it is stored as, carries the category of the
    file it came from. *)
Theorem category_overwritten_by_file :
  (forall c d, py_getitem (tagged c (PDict d)) "category" = Ok c)
  /\ (forall name d ds,
         dict_get "scenarios" d = Some (PList (map PDict ds)) ->
         file_scenarios (mk_file name (Parsed (PDict d)))
         = map (fun s => PDict (dict_set "category" (file_category d) s)) ds)
  /\ (forall files s,
         In s (fst (load_knowledge_files files)) ->
         exists f d,
           In f files /\ content f = Parsed (PDict d)
           /\ py_getitem s "category" = Ok (file_category d))
  /\ (forall files out f,
         main (Some files) out = (f, Exited 0) ->
         exists database rows,
           f = Some database /\ knowledge database = Some rows
           /\ forall row,
               In row rows ->
               exists file d a,
                 In file files /\ content file = Parsed (PDict d)
                 /\ adapt (file_category d) = Ok a
                 /\ k_category row = text_affinity a)
  /\ (forall f acc out,
         fst (load_file f (acc, out)) = acc ++ file_scenarios f)
  /\ (forall files,
         fst (load_knowledge_files files) = flat_map file_scenarios files
         /\ Forall2 (fun s f =>
                       In f files /\ In s (file_scenarios f)
                       /\ exists d, content f = Parsed (PDict d)
                                    /\ py_getitem s "category"
                                       = Ok (file_category d))
                    (fst (load_knowledge_files files))
                    (enclosing_files files))
  /\ (forall files,
         forallb objects_only files = true ->
         fst (load_knowledge_files files)
         = flat_map (fun f => map (tagged (category_of f))
                                  (scenario_objects f)) files)
  /\ (forall files out f,
         main (Some files) out = (f, Exited 0) ->
         exists database rows,
           f = Some database /\ knowledge database = Some rows
           /\ Forall2 (fun row file =>
                         In file files
                         /\ exists d a,
                             content file = Parsed (PDict d)
                             /\ adapt (file_category d) = Ok a
                             /\ k_category row = text_affinity a)
                      rows (enclosing_files files)).
Proof.
  assert (Hload : forall files s,
             In s (fst (load_knowledge_files files)) ->
             exists f d,
               In f files /\ content f = Parsed (PDict d)
               /\ py_getitem s "category" = Ok (file_category d)).
  { intros files s Hin. rewrite load_knowledge_files_scenarios in Hin.
    apply in_flat_map in Hin. destruct Hin as (f & Hf & Hs).
    destruct (file_scenarios_category f s Hs) as (d & Hd & Hc).
    exists f, d. auto. }
  assert (Hown : forall files,
             Forall2 (fun s f =>
                        In f files /\ In s (file_scenarios f)
                        /\ exists d, content f = Parsed (PDict d)
                                     /\ py_getitem s "category"
                                        = Ok (file_category d))
                     (fst (load_knowledge_files files))
                     (enclosing_files files)).
  { intros files. rewrite load_knowledge_files_scenarios.
    apply loaded_enclosing. auto. }
  split; [|split; [|split; [|split; [|split; [|split; [|split]]]]]].
  - intros c d. unfold tagged. simpl. now rewrite dict_get_set_same.
  - exact file_scenarios_dicts.
  - exact Hload.
  - intros files out f H. rewrite main_cases in H.
    destruct (fst (load_knowledge_files files)) as [|s rest] eqn:El;
      [discriminate|].
    destruct (create_database out (s :: rest)) as [f' [[]|e]] eqn:Ec;
      [|discriminate].
    inversion H; subst f'.
    destruct (create_database_ok _ _ _ Ec) as (rows & -> & Hst & _).
    exists (built_db rows (s :: rest)), rows.
    split; [reflexivity|]. split; [reflexivity|].
    intros row Hin.
    destruct (stored_row_origin _ _ _ Hst Hin) as (s0 & Hs0 & Hrow).
    rewrite <- El in Hs0.
    destruct (Hload files s0 Hs0) as (file & d & Hfile & Hd & Hcat).
    apply row_for_inv in Hrow.
    destruct Hrow as (v1 & v2 & ks & kw & v4 & v5 & a1 & a2 & a4 & a5
                      & _ & Hc & _ & _ & _ & _ & _ & Ha2 & _ & _ & ->).
    rewrite Hcat in Hc. inversion Hc; subst v2.
    exists file, d, a2. auto.
  - intros f acc out. now rewrite load_file_acc.
  - intros files. split; [apply load_knowledge_files_scenarios|apply Hown].
  - intros files Hobj. rewrite load_knowledge_files_scenarios.
    induction files as [|f files IH]; [reflexivity|].
    simpl in Hobj. apply andb_prop in Hobj. destruct Hobj as [Hf Hfs].
    cbn [flat_map]. now rewrite (IH Hfs), (objects_only_own_category f Hf).
  - intros files out f H. rewrite main_cases in H.
    pose proof (Hown files) as Hf2.
    destruct (fst (load_knowledge_files files)) as [|s rest] eqn:El;
      [discriminate|].
    destruct (create_database out (s :: rest)) as [f' [[]|e]] eqn:Ec;
      [|discriminate].
    inversion H; subst f'.
    destruct (create_database_ok _ _ _ Ec) as (rows & -> & Hst & _).
    exists (built_db rows (s :: rest)), rows.
    split; [reflexivity|]. split; [reflexivity|].
    pose proof (Forall2_compose _ _ _ _ _ Hst Hf2) as Hc.
    eapply Forall2_impl; [|exact Hc].
    intros row file (s0 & Hrow & Hfile & _ & d & Hd & Hcat).
    cbv beta in Hrow. apply row_for_inv in Hrow.
    destruct Hrow as (v1 & v2 & ks & kw & v4 & v5 & a1 & a2 & a4 & a5
                      & _ & Hc2 & _ & _ & _ & _ & _ & Ha2 & _ & _ & ->).
    rewrite Hcat in Hc2. inversion Hc2; subst v2.
    split; [assumption|]. exists d, a2. auto.
Qed.

Lemma category_overwritten_by_file_witness :
  let obj i c := PDict [("id", PStr i); ("category", PStr c);
                        ("keywords", PList [PStr "k"]);
                        ("context", PStr "c"); ("priority", PStr "p")] in
  let fire := mk_file "fire.json"
                (Parsed (PDict [("category", PStr "fire");
                                ("scenarios",
                                 PList [obj "f-1" "water";
                                        obj "f-2" "x"])])) in
  let water := mk_file "water.json"
                 (Parsed (PDict [("category", PStr "water");
                                 ("scenarios",
                                  PList [obj "w-1" "fire"])])) in
  let files := [fire; water] in
  map (fun s => py_getitem s "category") (fst (load_knowledge_files files))
  = [Ok (PStr "fire"); Ok (PStr "fire"); Ok (PStr "water")]
  /\ enclosing_files files = [fire; fire; water]
  /\ exists database rows,
      fst (main (Some files) None) = Some database
      /\ knowledge database = Some rows
      /\ map k_category rows = [SText "fire"; SText "fire"; SText "water"].
Proof.
  intros obj fire water files.
  destruct category_overwritten_by_file
    as (_ & _ & _ & _ & _ & _ & H7 & H8).
  split; [|split].
  - rewrite (H7 files eq_refl). vm_compute. reflexivity.
  - vm_compute. reflexivity.
  - assert (E : main (Some files) None
                = (fst (main (Some files) None), Exited 0))
      by (vm_compute; reflexivity).
    destruct (H8 files None _ E) as (database & rows & Hd & Hk & _).
    exists database, rows. split; [exact Hd|]. split; [exact Hk|].
    vm_compute in Hd. inversion Hd; subst database.
    vm_compute in Hk. inversion Hk; subst rows. reflexivity.
Defined.

(* ===================================================================== *)
(** ** Further properties of the loader *)
(* ===================================================================== *)

Section LoaderEdges.

Lemma tag_scenarios_stops c ds bad rest acc :
  is_dict bad = false ->
  tag_scenarios c (map PDict ds ++ bad :: rest) acc
  = (acc ++ map (fun d => PDict (dict_set "category" c d)) ds,
     Some TypeError).
Proof.
  intros Hbad. revert acc.
  induction ds as [|d ds IH]; intros acc; simpl.
  - destruct bad; try discriminate; now rewrite app_nil_r.
  - rewrite IH, <- app_assoc. reflexivity.
Qed.

Lemma tag_scenarios_none c items :
  snd (tag_scenarios c items []) = None ->
  List.length (fst (tag_scenarios c items [])) = List.length items.
Proof.
  induction items as [|s rest IH]; simpl; [reflexivity|].
  destruct (py_setitem s "category" c) as [s'|e]; simpl; [|discriminate].
  rewrite (tag_scenarios_acc c rest [s']). simpl. intros H.
  now rewrite (IH H).
Qed.

Lemma py_getitem_tagged_other c s k :
  k <> "category" -> py_getitem (tagged c s) k = py_getitem s k.
Proof.
  intros Hk. destruct s; try reflexivity.
  unfold tagged. simpl. rewrite dict_get_set_other; auto.
Qed.

Lemma objects_only_scenarios f :
  objects_only f = true ->
  exists c, file_scenarios f = map (tagged c) (scenario_objects f).
Proof.
  destruct f as [name [e|data]]; unfold objects_only, scenario_objects;
    simpl; [exists PNone; reflexivity|].
  destruct data; try (exists PNone; reflexivity).
  unfold file_scenarios, load_file. simpl. rewrite load_parsed_dict.
  exists (file_category d).
  destruct (dict_get "scenarios" d) as [v|]; [|reflexivity].
  destruct v; try reflexivity; simpl.
  - pose proof (tag_scenarios_strs (file_category d) (chars s)) as E.
    destruct (tag_scenarios _ _ _) as [added [e|]]; simpl in *; now subst.
  - destruct (is_dict_dicts l H) as [ds ->].
    rewrite tag_scenarios_dicts. simpl. rewrite map_map. reflexivity.
  - pose proof (tag_scenarios_keys (file_category d) d0) as E.
    destruct (tag_scenarios _ _ _) as [added [e|]]; simpl in *; now subst.
Qed.

End LoaderEdges.

(** X1. A file whose [scenarios] list holds objects and then an element
    that is not an object is loaded up to that element: the objects
    before it stay in the result, tagged, the file is reported with a
    [TypeError], and nothing after the element is loaded. *)
Theorem load_stops_at_non_object name (d : list (string * pyval))
        ds bad rest acc out :
  dict_get "scenarios" d = Some (PList (map PDict ds ++ bad :: rest)) ->
  is_dict bad = false ->
  load_file (mk_file name (Parsed (PDict d))) (acc, out)
  = (acc ++ map (fun s => PDict (dict_set "category" (file_category d) s)) ds,
     out ++ [Loading name; ErrorLoading name TypeError]).
Proof.
  intros Hs Hbad. unfold load_file. simpl.
  rewrite load_parsed_dict, Hs. simpl.
  rewrite (tag_scenarios_stops _ _ _ _ _ Hbad).
  now rewrite <- app_assoc.
Qed.

Lemma load_stops_at_non_object_witness :
  load_file
    (mk_file "mixed.json"
       (Parsed (PDict [("category", PStr "fire");
                       ("scenarios",
                        PList [PDict [("id", PStr "a")]; PInt 7;
                               PDict [("id", PStr "b")]])])))
    ([], [])
  = ([PDict [("id", PStr "a"); ("category", PStr "fire")]],
     [Loading "mixed.json"; ErrorLoading "mixed.json" TypeError]).
Proof.
  exact (load_stops_at_non_object "mixed.json"
           [("category", PStr "fire");
            ("scenarios", PList [PDict [("id", PStr "a")]; PInt 7;
                                 PDict [("id", PStr "b")]])]
           [[("id", PStr "a")]] (PInt 7) [PDict [("id", PStr "b")]]
           [] [] eq_refl eq_refl).
Defined.

(** X2. A file whose JSON is not an object adds nothing and is reported
    with an [AttributeError]; an object whose [scenarios] is not a list,
    dict or string, or is a non-empty string or dict, adds nothing and is
    reported with a [TypeError]. *)
Theorem load_rejects_malformed name acc out :
  (forall data,
      is_dict data = false ->
      load_file (mk_file name (Parsed data)) (acc, out)
      = (acc, out ++ [Loading name; ErrorLoading name AttributeError]))
  /\ (forall d v,
         dict_get "scenarios" d = Some v ->
         iterable v = false
         \/ (exists c w, v = PStr (String c w))
         \/ (exists kv kd, v = PDict (kv :: kd)) ->
         load_file (mk_file name (Parsed (PDict d))) (acc, out)
         = (acc, out ++ [Loading name; ErrorLoading name TypeError])).
Proof.
  split.
  - intros data H. unfold load_file. simpl.
    destruct data; try discriminate; simpl; now rewrite <- app_assoc.
  - intros d v Hs Hv. unfold load_file. simpl.
    rewrite load_parsed_dict, Hs.
    destruct Hv as [Hv|[(c & w & ->)|(kv & kd & ->)]].
    + destruct v; try discriminate; simpl; now rewrite <- app_assoc.
    + simpl. now rewrite <- app_assoc.
    + simpl. now rewrite <- app_assoc.
Qed.

Lemma load_rejects_malformed_witness :
  load_file (mk_file "list.json" (Parsed (PList [PDict []]))) ([], [])
  = ([], [Loading "list.json"; ErrorLoading "list.json" AttributeError])
  /\ load_file (mk_file "text.json"
                  (Parsed (PDict [("scenarios", PStr "ab")]))) ([], [])
     = ([], [Loading "text.json"; ErrorLoading "text.json" TypeError]).
Proof.
  destruct (load_rejects_malformed "list.json" [] []) as [H1 _].
  destruct (load_rejects_malformed "text.json" [] []) as [_ H2].
  split.
  - exact (H1 (PList [PDict []]) eq_refl).
  - apply (H2 [("scenarios", PStr "ab")] (PStr "ab") eq_refl).
    right. left. exists "a"%char, "b". reflexivity.
Defined.

(** X3. Loading is compositional in the directory listing: the scenarios
    of a listing are those of its first part followed by those of the
    rest, and so are the printed lines when neither part is empty. *)
Theorem load_knowledge_files_app a b :
  fst (load_knowledge_files (a ++ b))
  = fst (load_knowledge_files a) ++ fst (load_knowledge_files b)
  /\ (a <> [] -> b <> [] ->
      snd (load_knowledge_files (a ++ b))
      = snd (load_knowledge_files a) ++ snd (load_knowledge_files b)).
Proof.
  split.
  - now rewrite !load_knowledge_files_scenarios, flat_map_app.
  - intros Ha Hb. destruct a as [|fa a]; [congruence|].
    destruct b as [|fb b]; [congruence|].
    change ((fa :: a) ++ fb :: b) with (fa :: (a ++ fb :: b)).
    rewrite !load_knowledge_files_log.
    change (fa :: a ++ fb :: b) with ((fa :: a) ++ fb :: b).
    now rewrite flat_map_app.
Qed.

Lemma load_knowledge_files_app_witness :
  let f1 := mk_file "a.json" (LoadError OSError) in
  let f2 := mk_file "b.json"
              (Parsed (PDict [("scenarios", PList [PDict []])])) in
  snd (load_knowledge_files ([f1] ++ [f2]))
  = snd (load_knowledge_files [f1]) ++ snd (load_knowledge_files [f2]).
Proof.
  intros f1 f2.
  destruct (load_knowledge_files_app [f1] [f2]) as [_ H].
  apply H; discriminate.
Defined.

(** X4. Apart from [category], the loader hands every scenario on as it
    was in the file: when the scenarios of the files are objects, the
    value under any other key, read off the loaded scenarios in order, is
    the value read off the scenario objects of the files in order. *)
Theorem load_keeps_other_fields files k :
  forallb objects_only files = true -> k <> "category" ->
  map (fun s => py_getitem s k) (fst (load_knowledge_files files))
  = map (fun s => py_getitem s k) (flat_map scenario_objects files).
Proof.
  intros Hobj Hk. rewrite load_knowledge_files_scenarios.
  induction files as [|f files IH]; simpl; [reflexivity|].
  simpl in Hobj. apply andb_prop in Hobj. destruct Hobj as [Hf Hfs].
  rewrite !map_app, (IH Hfs). f_equal.
  destruct (objects_only_scenarios f Hf) as [c ->].
  rewrite map_map. apply map_ext. intros s.
  now apply py_getitem_tagged_other.
Qed.

Lemma load_keeps_other_fields_witness :
  let files :=
    [mk_file "fire.json"
       (Parsed (PDict [("category", PStr "fire");
                       ("scenarios",
                        PList [PDict [("id", PStr "f-1");
                                      ("category", PStr "old")];
                               PDict [("id", PStr "f-2")]])]))] in
  map (fun s => py_getitem s "id") (fst (load_knowledge_files files))
  = [Ok (PStr "f-1"); Ok (PStr "f-2")].
Proof.
  intros files.
  rewrite (load_keeps_other_fields files "id").
  - reflexivity.
  - reflexivity.
  - discriminate.
Defined.

(** X5. Every file prints two lines, its name and then either an error
    or a count; a count is the number of scenarios the file added, and
    each of them carries the category printed with it. *)
Theorem loaded_line_counts_added f :
  exists second,
    file_log f = [Loading (file_name f); second]
    /\ ((exists e, second = ErrorLoading (file_name f) e)
        \/ (exists n c,
               second = Loaded n c
               /\ List.length (file_scenarios f) = n
               /\ Forall (fun s => py_getitem s "category" = Ok c)
                         (file_scenarios f))).
Proof.
  destruct f as [name [e|data]]; unfold file_log, file_scenarios, load_file;
    simpl.
  - eexists. split; [reflexivity|]. left. eauto.
  - destruct data;
      try (eexists; split; [reflexivity|]; left; eauto; fail).
    rewrite load_parsed_dict.
    destruct (py_iter _) as [items|e]; simpl;
      [|eexists; split; [reflexivity|]; left; eauto].
    pose proof (tag_scenarios_none (file_category d) items) as Hlen.
    pose proof (tag_scenarios_category (file_category d) items) as Hcat.
    destruct (tag_scenarios (file_category d) items []) as [added [e|]];
      simpl in *.
    + eexists. split; [reflexivity|]. left. eauto.
    + eexists. split; [reflexivity|]. right.
      exists (List.length items), (file_category d). auto.
Qed.

(* ===================================================================== *)
(** ** Further properties of the builder *)
(* ===================================================================== *)

Section BuilderEdges.

Lemma insert_scenarios_app a b :
  forall c,
    insert_scenarios (a ++ b) c
    = match insert_scenarios a c with
      | (c', Ok _) => insert_scenarios b c'
      | (c', Raise e) => (c', Raise e)
      end.
Proof.
  induction a as [|s a IH]; intros c; [reflexivity|].
  rewrite <- app_comm_cons. cbn [insert_scenarios]. unfold bindM.
  destruct (insert_scenario s c) as [c1 [[]|e]]; [apply IH|reflexivity].
Qed.

(** The build, read off the result of its loop. *)
Lemma create_database_by_loop out scenarios c r :
  insert_scenarios scenarios (mk_connection schema_db schema_db false)
  = (c, r) ->
  match r with
  | Raise e => create_database out scenarios = (Some schema_db, Raise e)
  | Ok _ =>
      exists rows,
        working c = loop_db rows
        /\ create_database out scenarios
           = (Some (built_db rows scenarios), Ok tt)
  end.
Proof.
  intros E.
  destruct (insert_scenarios_loop scenarios
              (mk_connection schema_db schema_db false) []
              eq_refl ids_unique_nil)
    as (c' & r' & E' & C & R).
  rewrite E in E'. inversion E'; subst c' r'.
  destruct r as [[]|e].
  - destruct R as (rows & Hw & _). exists rows. split; [exact Hw|].
    rewrite create_database_from_schema. unfold bindM at 1. rewrite E.
    cbv beta iota. now rewrite (finish_build rows scenarios c Hw).
  - rewrite create_database_from_schema. unfold bindM at 1. rewrite E.
    simpl in C. now rewrite C.
Qed.

(** A scenario the loop body cannot store raises from any loop state. *)
Lemma insert_scenario_raises s c rows e :
  working c = loop_db rows ->
  (row_for s (next_rowid rows) = Raise e
   \/ exists new, row_for s (next_rowid rows) = Ok new
                  /\ check_row new rows = Raise e) ->
  exists c', insert_scenario s c = (c', Raise e).
Proof.
  intros Hw H.
  destruct (insert_scenario_loop s c rows Hw) as (c' & r & E & _ & R).
  exists c'. rewrite E. f_equal.
  destruct r as [[]|e'].
  - destruct R as (new & Hrow & Hchk & _).
    destruct H as [H|(new' & Hrow' & Hchk')]; [congruence|].
    rewrite Hrow in Hrow'. inversion Hrow'; subst new'. congruence.
  - destruct R as [_ [R|(new & Hrow & Hchk)]];
      destruct H as [H|(new' & Hrow' & Hchk')]; congruence.
Qed.

(** After scenarios that are stored, the first one that cannot be stored
    decides how the build ends. *)
Lemma create_database_fails_at out good s rest e :
  Forall (fun s => well_formed s = true) good ->
  NoDup (map sql_id good) ->
  (forall rows,
      row_for s (next_rowid rows) = Raise e
      \/ exists new, row_for s (next_rowid rows) = Ok new
                     /\ check_row new rows = Raise e) ->
  create_database out (good ++ s :: rest) = (Some schema_db, Raise e).
Proof.
  intros Hwf Hnd Hs.
  set (c0 := mk_connection schema_db schema_db false).
  destruct (insert_scenarios_distinct good c0 [] eq_refl Hwf Hnd) as [c1 E1].
  destruct (insert_scenarios_loop good c0 [] eq_refl ids_unique_nil)
    as (c1' & r1 & E1' & _ & R1).
  rewrite E1 in E1'. inversion E1'; subst c1' r1.
  destruct R1 as (rows & Hw1 & _). simpl in Hw1.
  destruct (insert_scenario_raises s c1 rows e Hw1 (Hs rows)) as [c2 E2].
  apply (create_database_by_loop out (good ++ s :: rest) c2 (Raise e)).
  fold c0. rewrite insert_scenarios_app, E1.
  cbn [insert_scenarios]. unfold bindM at 1. now rewrite E2.
Qed.

Lemma all_str_non_str l x :
  In x l -> is_str x = false -> all_str l = Raise TypeError.
Proof.
  induction l as [|y l IH]; intros Hin Hx; [destruct Hin|].
  destruct Hin as [->|Hin].
  - destruct x; try discriminate; reflexivity.
  - simpl. destruct y; try reflexivity. now rewrite (IH Hin Hx).
Qed.

End BuilderEdges.

(** X6. Whatever it is given, [create_database] leaves a file at the
    output path, and the file has the whole schema: both tables, the three
    triggers and the two indexes.  When it raises, the file has nothing
    else: an empty [knowledge], an empty mirror and no [metadata] table. *)
Theorem create_database_leaves_schema out scenarios :
  exists d rows,
    fst (create_database out scenarios) = Some d
    /\ knowledge d = Some rows
    /\ knowledge_fts d = Some (map mirror rows)
    /\ triggers d = [knowledge_ai; knowledge_ad; knowledge_au]
    /\ indexes d = ["idx_category"; "idx_priority"]
    /\ (forall e, snd (create_database out scenarios) = Raise e ->
                  d = schema_db).
Proof.
  destruct (create_database_cases out scenarios)
    as [[e He]|(rows & Hr & _)].
  - exists schema_db, []. rewrite He. repeat split; auto.
  - exists (built_db rows scenarios), rows. rewrite Hr.
    repeat split; auto. intros e H. discriminate H.
Qed.

Lemma create_database_leaves_schema_witness :
  fst (create_database (Some (built_db [] [])) [PInt 1]) = Some schema_db.
Proof.
  destruct (create_database_leaves_schema (Some (built_db [] [])) [PInt 1])
    as (d & rows & Hd & _ & _ & _ & _ & He).
  rewrite Hd. f_equal. apply (He TypeError). vm_compute. reflexivity.
Defined.

(** X7. The loop body reads [id], [category], [keywords], [context] and
    [priority] in that order: after scenarios that are stored, a scenario
    that has the keys before one of them (its keywords joinable if that
    comes before) and lacks that one ends the build with a [KeyError] for
    it, and nothing but the schema is committed. *)
Theorem missing_key_raises_KeyError out good (d : list (string * pyval))
        rest before k after :
  Forall (fun s => well_formed s = true) good ->
  NoDup (map sql_id good) ->
  required_keys = before ++ k :: after ->
  (forall k', In k' before -> dict_get k' d <> None) ->
  (In "keywords" before ->
   exists ks kw, dict_get "keywords" d = Some ks /\ py_join ", " ks = Ok kw) ->
  dict_get k d = None ->
  create_database out (good ++ PDict d :: rest)
  = (Some schema_db, Raise (KeyError k)).
Proof.
  intros Hwf Hnd Hreq Hbefore Hjoin Hk.
  apply create_database_fails_at; auto.
  intros rows. left. unfold row_for, py_getitem.
  assert (Hget : forall k', In k' before ->
                            exists v, dict_get k' d = Some v).
  { intros k' Hin. destruct (dict_get k' d) eqn:E; [eauto|].
    exfalso. exact (Hbefore k' Hin E). }
  unfold required_keys in Hreq.
  destruct before as [|b1 before]; simpl in Hreq; inversion Hreq; subst;
    [now rewrite Hk|].
  destruct (Hget "id" (or_introl eq_refl)) as [v1 ->].
  destruct before as [|b2 before]; simpl in *; inversion H1; subst;
    [now rewrite Hk|].
  destruct (Hget "category" (or_intror (or_introl eq_refl))) as [v2 ->].
  destruct before as [|b3 before]; simpl in *; inversion H2; subst;
    [now rewrite Hk|].
  destruct Hjoin as (ks & kw & -> & Hkw); [auto|].
  cbn [bind]. rewrite Hkw.
  destruct before as [|b4 before]; simpl in *; inversion H3; subst;
    [now rewrite Hk|].
  destruct (Hget "context" (or_intror (or_intror (or_intror
                              (or_introl eq_refl))))) as [v4 ->].
  destruct before as [|b5 before]; simpl in *; inversion H4; subst;
    [now rewrite Hk|].
  destruct before; discriminate.
Qed.

Lemma missing_key_raises_KeyError_witness :
  create_database None
    [PDict [("id", PStr "a"); ("category", PStr "fire");
            ("keywords", PList [PStr "k"]); ("context", PStr "c");
            ("priority", PStr "p")];
     PDict [("id", PStr "b"); ("category", PStr "fire");
            ("keywords", PList []); ("priority", PStr "p")]]
  = (Some schema_db, Raise (KeyError "context")).
Proof.
  apply (missing_key_raises_KeyError None
           [PDict [("id", PStr "a"); ("category", PStr "fire");
                   ("keywords", PList [PStr "k"]); ("context", PStr "c");
                   ("priority", PStr "p")]]
           [("id", PStr "b"); ("category", PStr "fire");
            ("keywords", PList []); ("priority", PStr "p")]
           [] ["id"; "category"; "keywords"] "context" ["priority"]).
  - repeat constructor.
  - repeat constructor. intros [].
  - reflexivity.
  - intros k' [<-|[<-|[<-|[]]]]; discriminate.
  - intros _. exists (PList []), EmptyString. split; reflexivity.
  - reflexivity.
Defined.

(** X8. After scenarios that are stored, a scenario that is not an
    object, or whose [keywords] (with [id] and [category] present) is not
    iterable or yields an element that is not a string, ends the build
    with a [TypeError], and nothing but the schema is committed. *)
Theorem ill_typed_scenario_raises_TypeError out good s rest :
  Forall (fun s => well_formed s = true) good ->
  NoDup (map sql_id good) ->
  is_dict s = false
  \/ (exists d ks,
         s = PDict d
         /\ dict_get "id" d <> None /\ dict_get "category" d <> None
         /\ dict_get "keywords" d = Some ks
         /\ (iterable ks = false
             \/ exists items x,
                 py_iter ks = Ok items /\ In x items /\ is_str x = false)) ->
  create_database out (good ++ s :: rest)
  = (Some schema_db, Raise TypeError).
Proof.
  intros Hwf Hnd Hs.
  apply create_database_fails_at; auto.
  intros rows. left. unfold row_for, py_getitem.
  destruct Hs as [Hs|(d & ks & -> & Hid & Hcat & Hks & Hbad)].
  - destruct s; try discriminate; reflexivity.
  - destruct (dict_get "id" d); [|congruence].
    destruct (dict_get "category" d); [|congruence].
    rewrite Hks. cbn [bind]. unfold py_join.
    destruct Hbad as [Hit|(items & x & Hi & Hin & Hx)].
    + destruct ks; try discriminate; reflexivity.
    + rewrite Hi. cbn [bind]. now rewrite (all_str_non_str items x Hin Hx).
Qed.

Lemma ill_typed_scenario_raises_TypeError_witness :
  create_database None
    [PDict [("id", PStr "a"); ("category", PStr "fire");
            ("keywords", PList [PStr "k"; PInt 3]); ("context", PStr "c");
            ("priority", PStr "p")]]
  = (Some schema_db, Raise TypeError).
Proof.
  apply (ill_typed_scenario_raises_TypeError None []
           (PDict [("id", PStr "a"); ("category", PStr "fire");
                   ("keywords", PList [PStr "k"; PInt 3]);
                   ("context", PStr "c"); ("priority", PStr "p")]) []).
  - constructor.
  - constructor.
  - right. eexists. exists (PList [PStr "k"; PInt 3]).
    split; [reflexivity|]. split; [discriminate|]. split; [discriminate|].
    split; [reflexivity|]. right.
    exists [PStr "k"; PInt 3], (PInt 3).
    split; [reflexivity|]. split; [simpl; auto|reflexivity].
Defined.

(** X9. The build fails fast: once a list of scenarios makes it raise,
    the same list with more scenarios after it ends in the same way, the
    later scenarios never being looked at. *)
Theorem create_database_fails_fast out scenarios more e :
  snd (create_database out scenarios) = Raise e ->
  create_database out (scenarios ++ more) = (Some schema_db, Raise e)
  /\ create_database out scenarios = (Some schema_db, Raise e).
Proof.
  intros H.
  set (c0 := mk_connection schema_db schema_db false).
  destruct (insert_scenarios scenarios c0) as [c r] eqn:E.
  pose proof (create_database_by_loop out scenarios c r E) as Hl.
  destruct r as [[]|e'].
  - destruct Hl as (rows & _ & Hl). rewrite Hl in H. discriminate H.
  - rewrite Hl in H. simpl in H. inversion H; subst e'.
    split; [|exact Hl].
    apply (create_database_by_loop out (scenarios ++ more) c (Raise e)).
    fold c0. now rewrite insert_scenarios_app, E.
Qed.

Lemma create_database_fails_fast_witness :
  create_database None
    ([PInt 1] ++ [PDict [("id", PStr "a"); ("category", PStr "fire");
                         ("keywords", PList []); ("context", PStr "c");
                         ("priority", PStr "p")]])
  = (Some schema_db, Raise TypeError).
Proof.
  refine (proj1 (create_database_fails_fast None [PInt 1] _ TypeError _)).
  vm_compute. reflexivity.
Defined.

Section BuilderValues.

Lemma well_formed_fields d :
  well_formed (PDict d) = true ->
  exists i c kws x p,
    dict_get "id" d = Some (PStr i)
    /\ dict_get "category" d = Some (PStr c)
    /\ dict_get "keywords" d = Some (PList (map PStr kws))
    /\ dict_get "context" d = Some (PStr x)
    /\ dict_get "priority" d = Some (PStr p).
Proof.
  simpl. intros H.
  repeat (apply andb_prop in H; destruct H as [H ?]).
  destruct (has_field_str _ _ H) as [i Hi].
  destruct (has_field_str _ _ H0) as [c Hc].
  destruct (has_field_str _ _ H1) as [p Hp].
  destruct (has_field_str _ _ H2) as [x Hx].
  unfold has_field in H3.
  destruct (dict_get "keywords" d) as [ks|] eqn:Hk; [|discriminate].
  destruct (is_str_list_strs ks H3) as [kws ->].
  exists i, c, kws, x, p. auto.
Qed.

(** A scenario the loop body can store is stored, from any loop state. *)
Lemma insert_scenario_accepts s c rows new :
  working c = loop_db rows ->
  row_for s (next_rowid rows) = Ok new ->
  check_row new rows = Ok tt ->
  exists c',
    insert_scenario s c = (c', Ok tt)
    /\ working c' = loop_db (rows ++ [new]).
Proof.
  intros Hw Hrow Hchk.
  destruct (insert_scenario_loop s c rows Hw) as (c' & r & E & _ & R).
  exists c'. destruct r as [[]|e].
  - destruct R as (new' & Hrow' & _ & Hw' & _).
    rewrite Hrow in Hrow'. inversion Hrow'; subst new'. auto.
  - destruct R as [_ [R|(new' & Hrow' & Hchk')]]; [congruence|].
    rewrite Hrow in Hrow'. inversion Hrow'; subst new'. congruence.
Qed.

Lemma insert_scenarios_accepts scenarios :
  (forall s, In s scenarios ->
             forall n rows, exists new,
                 row_for s n = Ok new /\ check_row new rows = Ok tt) ->
  forall c rows,
    working c = loop_db rows ->
    exists c', insert_scenarios scenarios c = (c', Ok tt).
Proof.
  induction scenarios as [|s rest IH]; intros Hall c rows Hw.
  - exists c. reflexivity.
  - destruct (Hall s (or_introl eq_refl) (next_rowid rows) rows)
      as (new & Hrow & Hchk).
    destruct (insert_scenario_accepts s c rows new Hw Hrow Hchk)
      as (c1 & E1 & Hw1).
    cbn [insert_scenarios]. unfold bindM at 1. rewrite E1.
    apply (IH (fun s' H => Hall s' (or_intror H)) c1 _ Hw1).
Qed.

Lemma max_rowid_seq k :
  forall a,
    fold_right Z.max 0%Z (map Z.of_nat (seq a k))
    = match k with
      | O => 0%Z
      | S k' => Z.of_nat (a + k')
      end.
Proof.
  induction k as [|k IH]; intros a; [reflexivity|].
  cbn [seq map fold_right]. rewrite IH. destruct k; lia.
Qed.

Lemma next_rowid_seq rows :
  map k_rowid rows = map Z.of_nat (seq 1 (List.length rows)) ->
  next_rowid rows = Z.of_nat (S (List.length rows)).
Proof.
  intros H. unfold next_rowid. rewrite H, max_rowid_seq.
  destruct (List.length rows); lia.
Qed.

Lemma insert_scenarios_rowids scenarios :
  forall c rows c',
    working c = loop_db rows ->
    map k_rowid rows = map Z.of_nat (seq 1 (List.length rows)) ->
    insert_scenarios scenarios c = (c', Ok tt) ->
    exists news,
      working c' = loop_db (rows ++ news)
      /\ map k_rowid (rows ++ news)
         = map Z.of_nat (seq 1 (List.length (rows ++ news))).
Proof.
  induction scenarios as [|s rest IH]; intros c rows c' Hw Hids H.
  - inversion H; subst c'. exists []. now rewrite app_nil_r.
  - cbn [insert_scenarios] in H. unfold bindM at 1 in H.
    destruct (insert_scenario_loop s c rows Hw) as (c1 & r1 & E1 & _ & R1).
    rewrite E1 in H. destruct r1 as [[]|e]; [|discriminate].
    destruct R1 as (new & Hrow & _ & Hw1 & _).
    assert (Hids1 : map k_rowid (rows ++ [new])
                    = map Z.of_nat (seq 1 (List.length (rows ++ [new])))).
    { rewrite map_app, length_app. simpl.
      rewrite Nat.add_1_r, seq_S, map_app, <- Hids. simpl.
      rewrite (row_for_rowid _ _ _ Hrow), (next_rowid_seq rows Hids).
      reflexivity. }
    destruct (IH c1 (rows ++ [new]) c' Hw1 Hids1 H) as (news & Hw' & Hids').
    exists (new :: news). now rewrite <- app_assoc in Hw', Hids'.
Qed.

End BuilderValues.

(** X10. The columns [category], [context] and [priority] are NOT NULL:
    after scenarios that are stored, a scenario with a string id, string
    keywords and a JSON null in one of these three (the other two being
    strings) ends the build with the constraint violation for that column,
    and nothing but the schema is committed. *)
Theorem null_column_violates_not_null out good (d : list (string * pyval))
        rest i kws k :
  Forall (fun s => well_formed s = true) good ->
  NoDup (map sql_id good) ->
  dict_get "id" d = Some (PStr i) ->
  dict_get "keywords" d = Some (PList (map PStr kws)) ->
  In k ["category"; "context"; "priority"] ->
  dict_get k d = Some PNone ->
  (forall k', In k' ["category"; "context"; "priority"] -> k' <> k ->
              exists v, dict_get k' d = Some (PStr v)) ->
  create_database out (good ++ PDict d :: rest)
  = (Some schema_db, Raise (IntegrityError (NotNullFailed k))).
Proof.
  intros Hwf Hnd Hi Hk Hin Hnull Hothers.
  apply create_database_fails_at; auto.
  intros rows. right. unfold row_for, py_getitem. rewrite Hi, Hk.
  destruct Hin as [<-|[<-|[<-|[]]]].
  - destruct (Hothers "context") as [x Hx]; [simpl; auto|discriminate|].
    destruct (Hothers "priority") as [p Hp]; [simpl; auto|discriminate|].
    rewrite Hnull, Hx, Hp. cbn [bind]. rewrite py_join_strs.
    eexists. split; reflexivity.
  - destruct (Hothers "category") as [c Hc]; [simpl; auto|discriminate|].
    destruct (Hothers "priority") as [p Hp]; [simpl; auto|discriminate|].
    rewrite Hnull, Hc, Hp. cbn [bind]. rewrite py_join_strs.
    eexists. split; reflexivity.
  - destruct (Hothers "category") as [c Hc]; [simpl; auto|discriminate|].
    destruct (Hothers "context") as [x Hx]; [simpl; auto|discriminate|].
    rewrite Hnull, Hc, Hx. cbn [bind]. rewrite py_join_strs.
    eexists. split; reflexivity.
Qed.

Lemma null_column_violates_not_null_witness :
  create_database None
    [PDict [("id", PStr "a"); ("keywords", PList [PStr "k"]);
            ("context", PStr "c"); ("priority", PStr "p");
            ("category", PNone)]]
  = (Some schema_db, Raise (IntegrityError (NotNullFailed "category"))).
Proof.
  apply (null_column_violates_not_null None []
           [("id", PStr "a"); ("keywords", PList [PStr "k"]);
            ("context", PStr "c"); ("priority", PStr "p");
            ("category", PNone)] [] "a" ["k"] "category").
  - constructor.
  - constructor.
  - reflexivity.
  - reflexivity.
  - simpl. auto.
  - reflexivity.
  - intros k' [<-|[<-|[<-|[]]]] Hne; [congruence| |]; eexists; reflexivity.
Defined.

(** X11. The key column accepts NULL and NULLs never collide: a list of
    scenarios that are well formed except that each [id] is a JSON null is
    stored whole, every row with a NULL id. *)
Theorem null_ids_do_not_collide out scenarios :
  Forall (fun s => exists d, s = PDict (dict_set "id" PNone d)
                             /\ well_formed (PDict d) = true) scenarios ->
  exists rows,
    create_database out scenarios = (Some (built_db rows scenarios), Ok tt)
    /\ List.length rows = List.length scenarios
    /\ Forall (fun r => k_id r = SNull) rows.
Proof.
  intros Hall. rewrite Forall_forall in Hall.
  assert (Hrow : forall s, In s scenarios ->
                   sql_id s = SNull
                   /\ forall n rows, exists new,
                       row_for s n = Ok new /\ check_row new rows = Ok tt).
  { intros s Hin. destruct (Hall s Hin) as (d & -> & Hwf).
    destruct (well_formed_fields d Hwf)
      as (i & c & kws & x & p & Hi & Hc & Hk & Hx & Hp).
    split.
    - unfold sql_id, id_of, py_getitem. now rewrite dict_get_set_same.
    - intros n rows. unfold row_for, py_getitem.
      rewrite dict_get_set_same.
      rewrite !dict_get_set_other by discriminate.
      rewrite Hc, Hk, Hx, Hp. cbn [bind]. rewrite py_join_strs.
      eexists. split; reflexivity. }
  destruct (insert_scenarios_accepts scenarios
              (fun s H => proj2 (Hrow s H))
              (mk_connection schema_db schema_db false) [] eq_refl)
    as [c E].
  destruct (create_database_by_loop out scenarios c (Ok tt) E)
    as (rows & _ & Hc).
  destruct (create_database_ok _ _ _ Hc) as (rows' & Heq & Hst & _).
  inversion Heq; subst rows'.
  exists rows. split; [exact Hc|]. split.
  - symmetry. exact (Forall2_length Hst).
  - apply Forall_forall. intros r Hr.
    destruct (stored_row_origin _ _ _ Hst Hr) as (s & Hs & Hfor).
    rewrite (row_for_id _ _ _ Hfor). exact (proj1 (Hrow s Hs)).
Qed.

Lemma null_ids_do_not_collide_witness :
  let s := PDict [("id", PNone); ("category", PStr "fire");
                  ("keywords", PList []); ("context", PStr "c");
                  ("priority", PStr "p")] in
  exists rows,
    create_database None [s; s] = (Some (built_db rows [s; s]), Ok tt)
    /\ List.length rows = 2.
Proof.
  intros s.
  destruct (null_ids_do_not_collide None [s; s]) as (rows & H & Hl & _).
  - repeat constructor;
      exists [("id", PStr "x"); ("category", PStr "fire");
              ("keywords", PList []); ("context", PStr "c");
              ("priority", PStr "p")]; split; reflexivity.
  - exists rows. split; [exact H|exact Hl].
Defined.

(** X12. Ids are compared as stored text: a scenario whose [id] is a
    64-bit integer and a later well-formed scenario whose [id] is the
    string of its decimal digits collide on the primary key. *)
Theorem integer_id_collides_with_its_text out da b z rest :
  well_formed (PDict da) = true -> well_formed b = true ->
  (int64_min <= z <= int64_max)%Z ->
  id_of b = PStr (text_of_Z z) ->
  create_database out (PDict (dict_set "id" (PInt z) da) :: b :: rest)
  = (Some schema_db, Raise (IntegrityError UniqueFailed)).
Proof.
  intros Ha Hb Hz Hid.
  set (c0 := mk_connection schema_db schema_db false).
  destruct (well_formed_fields da Ha)
    as (i & c & kws & x & p & Hi & Hc & Hk & Hx & Hp).
  assert (Hrange : ((int64_min <=? z) && (z <=? int64_max))%Z = true).
  { apply andb_true_intro. split; apply Z.leb_le; lia. }
  assert (Hrow : exists new,
             row_for (PDict (dict_set "id" (PInt z) da)) (next_rowid [])
             = Ok new
             /\ check_row new [] = Ok tt
             /\ k_id new = SText (text_of_Z z)).
  { unfold row_for, py_getitem. rewrite dict_get_set_same.
    rewrite !dict_get_set_other by discriminate.
    rewrite Hc, Hk, Hx, Hp. cbn [bind]. rewrite py_join_strs.
    cbn [bind adapt]. rewrite Hrange.
    eexists. repeat split; reflexivity. }
  destruct Hrow as (new & Hrow & Hchk & Hkid).
  destruct (insert_scenario_accepts _ c0 [] new eq_refl Hrow Hchk)
    as (c1 & E1 & Hw1).
  destruct (row_for_well_formed b (next_rowid ([] ++ [new])) Hb)
    as (i' & c' & kws' & x' & p' & Hi' & _ & Hrowb).
  rewrite Hid in Hi'. inversion Hi'; subst i'.
  destruct (insert_scenario_raises b c1 ([] ++ [new])
              (IntegrityError UniqueFailed) Hw1) as [c2 E2].
  { right. eexists. split; [exact Hrowb|].
    rewrite check_row_text. simpl. rewrite Hkid. simpl.
    now rewrite String.eqb_refl. }
  apply (create_database_by_loop out _ c2 (Raise _)).
  fold c0. cbn [insert_scenarios]. unfold bindM at 1. rewrite E1.
  unfold bindM at 1. now rewrite E2.
Qed.

Lemma integer_id_collides_with_its_text_witness :
  create_database None
    [PDict [("id", PInt 5); ("category", PStr "fire");
            ("keywords", PList []); ("context", PStr "c");
            ("priority", PStr "p")];
     PDict [("id", PStr "5"); ("category", PStr "fire");
            ("keywords", PList []); ("context", PStr "c");
            ("priority", PStr "p")]]
  = (Some schema_db, Raise (IntegrityError UniqueFailed)).
Proof.
  apply (integer_id_collides_with_its_text None
           [("id", PStr "x"); ("category", PStr "fire");
            ("keywords", PList []); ("context", PStr "c");
            ("priority", PStr "p")]
           (PDict [("id", PStr "5"); ("category", PStr "fire");
                   ("keywords", PList []); ("context", PStr "c");
                   ("priority", PStr "p")]) 5 []).
  - reflexivity.
  - reflexivity.
  - vm_compute. split; discriminate.
  - reflexivity.
Defined.

(** X13. [', '.join] takes whatever it can iterate: in a database the
    build commits, a scenario whose [keywords] is a string is stored with
    the characters of that string joined by comma and space, and one whose
    [keywords] is an object with the keys of that object joined. *)
Theorem keywords_string_is_split out scenarios f :
  create_database out scenarios = (f, Ok tt) ->
  exists d rows,
    f = Some d /\ knowledge d = Some rows
    /\ Forall2 (fun s row =>
                  (forall w,
                      py_getitem s "keywords" = Ok (PStr w) ->
                      k_keywords row = SText (join ", " (chars w)))
                  /\ (forall kd,
                         py_getitem s "keywords" = Ok (PDict kd) ->
                         k_keywords row = SText (join ", " (map fst kd))))
               scenarios rows.
Proof.
  intros H. destruct (create_database_ok _ _ _ H) as (rows & -> & Hst & _).
  exists (built_db rows scenarios), rows.
  split; [reflexivity|]. split; [reflexivity|].
  eapply Forall2_impl; [|exact Hst].
  intros s row Hrow. cbv beta in Hrow. apply row_for_inv in Hrow.
  destruct Hrow as (v1 & v2 & ks & kw & v4 & v5 & a1 & a2 & a4 & a5
                    & _ & _ & Hks & Hj & _ & _ & _ & _ & _ & _ & ->).
  split.
  - intros w Hw. rewrite Hw in Hks. inversion Hks; subst ks.
    unfold py_join in Hj. simpl in Hj. rewrite all_str_map in Hj.
    inversion Hj. reflexivity.
  - intros kd Hkd. rewrite Hkd in Hks. inversion Hks; subst ks.
    unfold py_join in Hj. simpl in Hj.
    rewrite <- (map_map fst PStr), all_str_map in Hj.
    inversion Hj. reflexivity.
Qed.

Lemma keywords_string_is_split_witness :
  exists d rows,
    fst (create_database None
           [PDict [("id", PStr "a"); ("category", PStr "fire");
                   ("keywords", PStr "ab"); ("context", PStr "c");
                   ("priority", PStr "p")]]) = Some d
    /\ knowledge d = Some rows
    /\ map k_keywords rows = [SText "a, b"].
Proof.
  match goal with
  | |- exists d rows, fst (create_database None ?l) = _ /\ _ =>
      assert (E : create_database None l
                  = (fst (create_database None l), Ok tt))
        by (vm_compute; reflexivity);
      destruct (keywords_string_is_split None l _ E)
        as (d & rows & Hd & Hk & _)
  end.
  exists d, rows. split; [exact Hd|]. split; [exact Hk|].
  vm_compute in Hd. inversion Hd; subst d.
  vm_compute in Hk. inversion Hk; subst rows. reflexivity.
Defined.

(** X14. In a database the build commits, the rows of [knowledge] carry
    the rowids 1, 2, ..., n in the order of the scenarios, and the entries
    of the mirror carry the same rowids. *)
Theorem rowids_count_from_one out scenarios f :
  create_database out scenarios = (f, Ok tt) ->
  exists d rows entries,
    f = Some d /\ knowledge d = Some rows /\ knowledge_fts d = Some entries
    /\ map k_rowid rows = map Z.of_nat (seq 1 (List.length scenarios))
    /\ map f_rowid entries = map Z.of_nat (seq 1 (List.length scenarios)).
Proof.
  intros H.
  destruct (insert_scenarios scenarios
              (mk_connection schema_db schema_db false)) as [c r] eqn:E.
  pose proof (create_database_by_loop out scenarios c r E) as Hl.
  destruct r as [[]|e]; [|rewrite Hl in H; discriminate H].
  destruct Hl as (rows & Hw & Hc). rewrite Hc in H. inversion H; subst f.
  destruct (create_database_ok _ _ _ Hc) as (rows' & Heq & Hst & _).
  inversion Heq; subst rows'.
  destruct (insert_scenarios_rowids scenarios
              (mk_connection schema_db schema_db false) [] c
              eq_refl eq_refl E)
    as (news & Hw' & Hids).
  simpl in Hw', Hids. rewrite Hw in Hw'. inversion Hw'; subst news.
  rewrite <- (Forall2_length Hst) in Hids.
  exists (built_db rows scenarios), rows, (map mirror rows).
  repeat split; auto.
  rewrite map_map. exact Hids.
Qed.

Lemma rowids_count_from_one_witness :
  exists d rows,
    fst (create_database None
           [PDict [("id", PStr "a"); ("category", PStr "fire");
                   ("keywords", PList []); ("context", PStr "c");
                   ("priority", PStr "p")];
            PDict [("id", PStr "b"); ("category", PStr "fire");
                   ("keywords", PList []); ("context", PStr "c");
                   ("priority", PStr "p")]]) = Some d
    /\ knowledge d = Some rows
    /\ map k_rowid rows = [1%Z; 2%Z].
Proof.
  match goal with
  | |- exists d rows, fst (create_database None ?l) = _ /\ _ =>
      assert (E : create_database None l
                  = (fst (create_database None l), Ok tt))
        by (vm_compute; reflexivity);
      destruct (rowids_count_from_one None l _ E)
        as (d & rows & entries & Hd & Hk & _ & Hr & _)
  end.
  exists d, rows. rewrite E. split; [exact Hd|]. split; [exact Hk|].
  exact Hr.
Defined.

(* ===================================================================== *)
(** ** Further properties of [main] and of the console output *)
(* ===================================================================== *)

(** X15. A run that ends with an uncaught exception has already deleted
    the previous output file: whatever was there, the file left holds the
    schema and no row. *)
Theorem failed_build_destroys_old_database dir out f e :
  main dir out = (f, Uncaught e) ->
  f = Some schema_db /\ row_count schema_db = 0
  /\ exists files,
      dir = Some files
      /\ create_database out (fst (load_knowledge_files files))
         = (Some schema_db, Raise e).
Proof.
  intros H. destruct dir as [files|]; [|discriminate H].
  rewrite main_cases in H.
  destruct (fst (load_knowledge_files files)) as [|s rest] eqn:El;
    [discriminate H|].
  destruct (create_database out (s :: rest)) as [f' [[]|e']] eqn:Ec;
    [discriminate H|].
  inversion H; subst f' e'.
  pose proof (create_database_raise _ _ _ _ Ec) as Hf. subst f.
  split; [reflexivity|]. split; [reflexivity|].
  exists files. split; [reflexivity|]. now rewrite El.
Qed.

Lemma failed_build_destroys_old_database_witness :
  let old := built_db [mk_krow 1 (SText "old") (SText "c") (SText "k")
                               (SText "x") (SText "p") SNull] [PNone] in
  fst (main (Some [mk_file "bad.json"
                     (Parsed (PDict [("scenarios", PList [PDict []])]))])
            (Some old))
  = Some schema_db.
Proof.
  intros old.
  match goal with
  | |- fst (main ?dir ?out) = _ =>
      assert (E : main dir out
                  = (fst (main dir out), Uncaught (KeyError "id")))
        by (vm_compute; reflexivity);
      destruct (failed_build_destroys_old_database dir out _ _ E)
        as [H _]
  end.
  exact H.
Defined.

(** X16. The verifier succeeds on the file of a build that returned and
    reports the number of scenarios and the fixed metadata; on the file of
    a build that raised, and on a missing file, its query fails. *)
Theorem verify_reports_build out scenarios f :
  (create_database out scenarios = (f, Ok tt) ->
   exists pairs,
     verify f = Ok (List.length scenarios, pairs)
     /\ metadata_get pairs "model_name" "unknown" = "keyword-only"
     /\ metadata_get pairs "version" "unknown" = "1.0-basic"
     /\ metadata_get pairs "total_scenarios" "unknown"
        = str_of_nat (List.length scenarios))
  /\ (forall e,
         create_database out scenarios = (f, Raise e) ->
         verify f = Raise OperationalError)
  /\ verify None = Raise OperationalError.
Proof.
  split; [|split; [|reflexivity]].
  - intros H. destruct (create_database_ok _ _ _ H) as (rows & -> & Hst & _).
    exists (metadata_pairs scenarios). unfold verify. simpl.
    rewrite <- (Forall2_length Hst). repeat split; reflexivity.
  - intros e H. rewrite (create_database_raise _ _ _ _ H). reflexivity.
Qed.

Lemma verify_reports_build_witness :
  exists pairs,
    verify (fst (create_database None
                   [PDict [("id", PStr "a"); ("category", PStr "fire");
                           ("keywords", PList []); ("context", PStr "c");
                           ("priority", PStr "p")]]))
    = Ok (1, pairs)
    /\ metadata_get pairs "version" "unknown" = "1.0-basic".
Proof.
  match goal with
  | |- exists pairs, verify (fst (create_database None ?l)) = _ /\ _ =>
      assert (E : create_database None l
                  = (fst (create_database None l), Ok tt))
        by (vm_compute; reflexivity);
      destruct (verify_reports_build None l
                  (fst (create_database None l))) as [H _];
      destruct (H E) as (pairs & Hv & _ & Hver & _)
  end.
  exists pairs. split; [exact Hv|exact Hver].
Defined.

Section Output.

Lemma insert_scenarios_out_erase scenarios :
  forall i total c,
    fst (insert_scenarios_out i total scenarios c)
    = insert_scenarios scenarios c.
Proof.
  induction scenarios as [|s rest IH]; intros i total c; [reflexivity|].
  cbn [insert_scenarios_out insert_scenarios]. unfold bindM.
  destruct (insert_scenario s c) as [c1 [[]|e]]; [|reflexivity].
  rewrite <- (IH (S i) total c1).
  destruct (insert_scenarios_out (S i) total rest c1) as [[c2 r2] out].
  reflexivity.
Qed.

Lemma flat_map_progress total l :
  flat_map (fun j => progress j total) l
  = map (fun j => Processed j total)
        (filter (fun j => Nat.eqb (j mod 10) 0) l).
Proof.
  induction l as [|j l IH]; [reflexivity|].
  cbn [flat_map filter]. unfold progress at 1.
  destruct (Nat.eqb (j mod 10) 0); simpl; now rewrite IH.
Qed.

(** The loop prints the progress lines of the scenarios it stored. *)
Lemma insert_scenarios_out_lines scenarios :
  forall i total c,
    exists k,
      snd (insert_scenarios_out i total scenarios c)
      = flat_map (fun j => progress j total) (seq i k)
      /\ match snd (fst (insert_scenarios_out i total scenarios c)) with
         | Ok _ => k = List.length scenarios
         | Raise _ => k < List.length scenarios
         end.
Proof.
  induction scenarios as [|s rest IH]; intros i total c.
  - exists 0. split; reflexivity.
  - cbn [insert_scenarios_out].
    destruct (insert_scenario s c) as [c1 [[]|e]].
    + destruct (IH (S i) total c1) as (k & Hl & Hk).
      destruct (insert_scenarios_out (S i) total rest c1) as [[c2 r2] out].
      simpl in *. exists (S k). split.
      * now rewrite Hl.
      * destruct r2; lia.
    + exists 0. split; [reflexivity|]. simpl. lia.
Qed.

Lemma schema_statements_fresh :
  schema_statements (connect None)
  = (mk_connection schema_db schema_db false, Ok tt).
Proof. reflexivity. Qed.

(** What [create_database] prints, by how it ends. *)
Lemma create_database_out_cases out scenarios :
  exists k,
    create_database_out out scenarios
    = (fst (create_database out scenarios),
       snd (create_database out scenarios),
       builder_prefix out (List.length scenarios)
       ++ map (fun j => Processed j (List.length scenarios))
              (progress_points k)
       ++ match snd (create_database out scenarios) with
          | Ok _ => [CreatedSuccessfully (List.length scenarios);
                     LocationLine; NoteBasicVersion; NoteKeywordSearch]
          | Raise _ => []
          end)
    /\ match snd (create_database out scenarios) with
       | Ok _ => k = List.length scenarios
       | Raise _ => k < List.length scenarios
       end.
Proof.
  set (n := List.length scenarios).
  set (c0 := mk_connection schema_db schema_db false).
  assert (Hs : schema_statements
                 (connect match out with
                          | Some _ => unlink out
                          | None => out
                          end) = (c0, Ok tt))
    by (destruct out; reflexivity).
  destruct (insert_scenarios_out_lines scenarios 1 n c0) as (k & Hl & Hk).
  pose proof (insert_scenarios_out_erase scenarios 1 n c0) as He.
  exists k. unfold create_database_out. rewrite Hs. fold n.
  destruct (insert_scenarios_out 1 n scenarios c0) as [[c r] lines] eqn:Eo.
  simpl in Hl, Hk, He. symmetry in He.
  pose proof (create_database_by_loop out scenarios c r He) as Hc.
  rewrite flat_map_progress in Hl. fold (progress_points k) in Hl.
  destruct r as [[]|e].
  - destruct Hc as (rows & Hw & Hc). rewrite Hc. simpl.
    fold (finish scenarios). unfold finish.
    rewrite (finish_build rows scenarios c Hw). simpl.
    split; [|exact Hk]. unfold builder_prefix. subst lines.
    now rewrite <- !app_assoc.
  - rewrite Hc. simpl. split; [|exact Hk].
    destruct (insert_scenarios_loop scenarios c0 [] eq_refl ids_unique_nil)
      as (c' & r' & E' & C & _).
    fold c0 in He. rewrite He in E'. inversion E'; subst c' r'.
    simpl in C. rewrite C. unfold builder_prefix. subst lines.
    now rewrite app_nil_r, <- !app_assoc.
Qed.

Lemma progress_points_S n :
  progress_points (S n)
  = progress_points n ++ (if Nat.eqb (S n mod 10) 0 then [S n] else []).
Proof.
  unfold progress_points. rewrite seq_S, filter_app. reflexivity.
Qed.

Lemma progress_points_length n : List.length (progress_points n) = n / 10.
Proof.
  induction n as [|n IH]; [reflexivity|].
  rewrite progress_points_S, length_app, IH.
  pose proof (Nat.div_mod_eq n 10) as Hn.
  pose proof (Nat.div_mod_eq (S n) 10) as Hs.
  pose proof (Nat.mod_upper_bound n 10) as Bn.
  pose proof (Nat.mod_upper_bound (S n) 10) as Bs.
  destruct (Nat.eqb (S n mod 10) 0) eqn:E; cbn [List.length].
  - apply Nat.eqb_eq in E. lia.
  - apply Nat.eqb_neq in E. lia.
Qed.

Lemma progress_points_spec n i :
  In i (progress_points n) <-> 1 <= i <= n /\ i mod 10 = 0.
Proof.
  unfold progress_points. rewrite filter_In, in_seq, Nat.eqb_eq. lia.
Qed.

Lemma builder_lines out scenarios x :
  In x (snd (create_database_out out scenarios)) -> builder_line x = true.
Proof.
  destruct (create_database_out_cases out scenarios) as (k & -> & _).
  simpl. unfold builder_prefix. intros H.
  repeat (apply in_app_or in H; destruct H as [H|H]).
  - destruct out; simpl in H; [destruct H as [<-|[]]|destruct H];
      reflexivity.
  - destruct H as [<-|[<-|[]]]; reflexivity.
  - apply in_map_iff in H. destruct H as (j & <- & _). reflexivity.
  - destruct (snd (create_database out scenarios)); simpl in H;
      [destruct H as [<-|[<-|[<-|[<-|[]]]]]; reflexivity|destruct H].
Qed.

End Output.

(** X17. A build that returns prints, after its opening lines, one
    progress line for every tenth scenario (10, 20, ... up to the number
    of scenarios, so a tenth of them rounded down) and then its four
    closing lines; the notice about the old file comes first exactly when
    there was one. *)
Theorem create_database_prints_progress out scenarios f :
  create_database out scenarios = (f, Ok tt) ->
  create_database_out out scenarios
  = (f, Ok tt,
     builder_prefix out (List.length scenarios)
     ++ map (fun j => Processed j (List.length scenarios))
            (progress_points (List.length scenarios))
     ++ [CreatedSuccessfully (List.length scenarios); LocationLine;
         NoteBasicVersion; NoteKeywordSearch])
  /\ List.length (progress_points (List.length scenarios))
     = List.length scenarios / 10
  /\ (forall i,
         In i (progress_points (List.length scenarios))
         <-> 1 <= i <= List.length scenarios /\ i mod 10 = 0).
Proof.
  intros H.
  destruct (create_database_out_cases out scenarios) as (k & E & Hk).
  rewrite H in E, Hk. simpl in E, Hk. subst k.
  split; [exact E|]. split.
  - apply progress_points_length.
  - intros i. apply progress_points_spec.
Qed.

Lemma create_database_prints_progress_witness :
  let s i := PDict [("id", PStr i); ("category", PStr "c");
                    ("keywords", PList []); ("context", PStr "x");
                    ("priority", PStr "p")] in
  let scenarios := map s ["a"; "b"; "c"; "d"; "e"; "f"; "g"; "h"; "i"; "j";
                          "k"] in
  snd (create_database_out (Some empty_db) scenarios)
  = [RemovingExisting; CreatingDatabase; InsertingScenarios 11;
     Processed 10 11; CreatedSuccessfully 11; LocationLine;
     NoteBasicVersion; NoteKeywordSearch].
Proof.
  intros s scenarios.
  assert (E : create_database (Some empty_db) scenarios
              = (fst (create_database (Some empty_db) scenarios), Ok tt))
    by (vm_compute; reflexivity).
  destruct (create_database_prints_progress _ _ _ E) as [H _].
  rewrite H. vm_compute. reflexivity.
Defined.

Section FailingOutput.

(** A loop that raises: the scenarios before the failing one are stored
    and their progress lines are what it printed. *)
Lemma insert_scenarios_out_raise scenarios :
  forall i total c c' e lines,
    insert_scenarios_out i total scenarios c = (c', Raise e, lines) ->
    exists stored bad rest c1,
      scenarios = stored ++ bad :: rest
      /\ insert_scenarios stored c = (c1, Ok tt)
      /\ insert_scenario bad c1 = (c', Raise e)
      /\ lines = flat_map (fun j => progress j total)
                          (seq i (List.length stored)).
Proof.
  induction scenarios as [|s rest IH]; intros i total c c' e lines H;
    [discriminate H|].
  cbn [insert_scenarios_out] in H.
  destruct (insert_scenario s c) as [c1 [[]|e1]] eqn:E1.
  - destruct (insert_scenarios_out (S i) total rest c1)
      as [[c2 r2] out] eqn:E2.
    inversion H; subst c2 r2 lines.
    destruct (IH _ _ _ _ _ _ E2)
      as (stored & bad & rest' & c3 & -> & Hs & Hb & ->).
    exists (s :: stored), bad, rest', c3. repeat split; auto.
    cbn [insert_scenarios]. unfold bindM at 1. now rewrite E1.
  - inversion H; subst c1 e1 lines.
    exists [], s, rest, c. repeat split; auto.
Qed.

End FailingOutput.

(** X18. A build that raises stopped at one scenario: the scenarios
    before it build on their own, with it the build raises, and what the
    build printed is its opening lines and the progress lines of the
    scenarios before it (every tenth of them), with none of the closing
    lines. *)
Theorem create_database_prints_no_success out scenarios f e :
  create_database out scenarios = (f, Raise e) ->
  exists stored bad rest,
    scenarios = stored ++ bad :: rest
    /\ snd (create_database out stored) = Ok tt
    /\ snd (create_database out (stored ++ [bad])) = Raise e
    /\ List.length stored < List.length scenarios
    /\ create_database_out out scenarios
       = (f, Raise e,
          builder_prefix out (List.length scenarios)
          ++ map (fun j => Processed j (List.length scenarios))
                 (progress_points (List.length stored))).
Proof.
  intros H.
  set (n := List.length scenarios).
  set (c0 := mk_connection schema_db schema_db false).
  assert (Hs : schema_statements
                 (connect match out with
                          | Some _ => unlink out
                          | None => out
                          end) = (c0, Ok tt))
    by (destruct out; reflexivity).
  pose proof (insert_scenarios_out_erase scenarios 1 n c0) as He.
  destruct (insert_scenarios_out 1 n scenarios c0) as [[c r] lines] eqn:Eo.
  simpl in He. symmetry in He.
  pose proof (create_database_by_loop out scenarios c r He) as Hc.
  destruct r as [[]|e'].
  { destruct Hc as (rows & _ & Hc). rewrite Hc in H. discriminate H. }
  rewrite Hc in H. inversion H; subst f e'.
  destruct (insert_scenarios_out_raise _ _ _ _ _ _ _ Eo)
    as (stored & bad & rest & c1 & Hsplit & Hst & Hbad & Hlines).
  exists stored, bad, rest. split; [exact Hsplit|]. split; [|split; [|split]].
  - destruct (create_database_by_loop out stored c1 (Ok tt) Hst)
      as (rows & _ & Hok).
    now rewrite Hok.
  - rewrite (create_database_by_loop out (stored ++ [bad]) c (Raise e));
      [reflexivity|].
    fold c0. rewrite insert_scenarios_app, Hst.
    cbn [insert_scenarios]. unfold bindM at 1. now rewrite Hbad.
  - subst n. rewrite Hsplit, length_app. simpl. lia.
  - unfold create_database_out. rewrite Hs. fold n. rewrite Eo.
    destruct (insert_scenarios_loop scenarios c0 [] eq_refl ids_unique_nil)
      as (c' & r' & E' & C & _).
    fold c0 in He. rewrite He in E'. inversion E'; subst c' r'.
    simpl in C. rewrite C. unfold builder_prefix.
    rewrite Hlines, flat_map_progress. fold (progress_points (List.length stored)).
    now rewrite <- !app_assoc.
Qed.

Lemma create_database_prints_no_success_witness :
  snd (create_database_out None [PInt 1])
  = [CreatingDatabase; InsertingScenarios 1].
Proof.
  assert (E : create_database None [PInt 1]
              = (Some schema_db, Raise TypeError))
    by (vm_compute; reflexivity).
  destruct (create_database_prints_no_success _ _ _ _ E)
    as (stored & bad & rest & _ & _ & _ & Hlen & H).
  rewrite H. simpl in Hlen.
  destruct stored as [|x stored]; [reflexivity|simpl in Hlen; lia].
Defined.

Section MainOutput.

(** [main] with its output, case by case. *)
Lemma main_out_cases dir out :
  main_out dir out
  = match dir with
    | None => (out, Exited 1, header ++ [ErrorDirectoryNotFound])
    | Some files =>
        let loaded := fst (load_knowledge_files files) in
        let log := snd (load_knowledge_files files) in
        let lines := snd (create_database_out out loaded) in
        match loaded with
        | [] => (out, Exited 1,
                 header ++ map LoaderLine log ++ [ErrorNoScenarios])
        | _ :: _ =>
            match create_database out loaded with
            | (f, Raise e) =>
                (f, Uncaught e,
                 header ++ map LoaderLine log
                 ++ [TotalLoaded (List.length loaded)] ++ lines)
            | (f, Ok _) =>
                (f, Exited 0,
                 header ++ map LoaderLine log
                 ++ [TotalLoaded (List.length loaded)] ++ lines
                 ++ [Verifying; Contains (List.length loaded);
                     Model "keyword-only"; Version "1.0-basic"]
                 ++ footer)
            end
        end
    end.
Proof.
  destruct dir as [files|]; [|reflexivity].
  unfold main_out.
  destruct (load_knowledge_files files) as [loaded log]. cbn [fst snd].
  cbv zeta.
  destruct loaded as [|s rest]; [now rewrite <- app_assoc|].
  destruct (create_database_out_cases out (s :: rest)) as (k & E & _).
  rewrite E. cbn [snd].
  destruct (create_database out (s :: rest)) as [f [[]|e]] eqn:Ec.
  - destruct (create_database_ok _ _ _ Ec) as (rows & -> & Hst & _).
    cbn [fst snd connect working built_db knowledge metadata].
    rewrite <- (Forall2_length Hst).
    assert (Hm : metadata_get (metadata_pairs (s :: rest))
                              "model_name" "unknown" = "keyword-only")
      by reflexivity.
    assert (Hv : metadata_get (metadata_pairs (s :: rest))
                              "version" "unknown" = "1.0-basic")
      by reflexivity.
    rewrite Hm, Hv. f_equal. now rewrite <- !app_assoc.
  - cbn [fst snd]. f_equal. now rewrite <- !app_assoc.
Qed.

End MainOutput.

(** X19. A run that ends with status 0 prints the number of scenarios it
    loaded and then, from the verifier, the same number as the row count
    of the database, the model name keyword-only and the version
    1.0-basic, between the header and the closing lines; and that number
    is the row count of the file it leaves. *)
Theorem main_prints_consistent_counts dir out f :
  main dir out = (f, Exited 0) ->
  exists files d,
    dir = Some files /\ f = Some d
    /\ row_count d = List.length (fst (load_knowledge_files files))
    /\ main_out dir out
       = (f, Exited 0,
          header
          ++ map LoaderLine (snd (load_knowledge_files files))
          ++ [TotalLoaded (List.length (fst (load_knowledge_files files)))]
          ++ snd (create_database_out out (fst (load_knowledge_files files)))
          ++ [Verifying;
              Contains (List.length (fst (load_knowledge_files files)));
              Model "keyword-only"; Version "1.0-basic"]
          ++ footer).
Proof.
  intros H. destruct dir as [files|]; [|discriminate H].
  rewrite main_out_cases. rewrite main_cases in H. cbv zeta.
  destruct (fst (load_knowledge_files files)) as [|s rest] eqn:El;
    [discriminate H|].
  destruct (create_database out (s :: rest)) as [f' [[]|e]] eqn:Ec;
    [|discriminate H].
  inversion H; subst f'.
  destruct (create_database_ok _ _ _ Ec) as (rows & -> & Hst & _).
  exists files, (built_db rows (s :: rest)). rewrite El.
  repeat split; auto.
  unfold row_count. simpl (knowledge _).
  symmetry. exact (Forall2_length Hst).
Qed.

Lemma main_prints_consistent_counts_witness :
  let files :=
    [mk_file "fire.json"
       (Parsed (PDict [("category", PStr "fire");
                       ("scenarios",
                        PList [PDict [("id", PStr "a");
                                      ("keywords", PList []);
                                      ("context", PStr "c");
                                      ("priority", PStr "p")]])]))] in
  snd (main_out (Some files) None)
  = header
    ++ [LoaderLine (Loading "fire.json");
        LoaderLine (Loaded 1 (PStr "fire"));
        TotalLoaded 1; CreatingDatabase; InsertingScenarios 1;
        CreatedSuccessfully 1; LocationLine; NoteBasicVersion;
        NoteKeywordSearch; Verifying; Contains 1; Model "keyword-only";
        Version "1.0-basic"]
    ++ footer.
Proof.
  intros files.
  assert (E : main (Some files) None
              = (fst (main (Some files) None), Exited 0))
    by (vm_compute; reflexivity).
  destruct (main_prints_consistent_counts _ _ _ E)
    as (files' & d & Hf & _ & _ & H).
  rewrite H. inversion Hf; subst files'. vm_compute. reflexivity.
Defined.

Section MainLines.

(** Where the closing banner and the two error messages can stand. *)
Lemma special_line_not_before x log n lines :
  x = Complete \/ x = ErrorDirectoryNotFound \/ x = ErrorNoScenarios ->
  (forall y, In y lines -> builder_line y = true) ->
  ~ In x (header ++ map LoaderLine log ++ [TotalLoaded n] ++ lines).
Proof.
  intros Hx Hlines H.
  apply in_app_or in H. destruct H as [H|H].
  - unfold header in H. simpl in H.
    destruct Hx as [-> | [-> | ->]];
      repeat (destruct H as [H|H]; [discriminate H|]); destruct H.
  - apply in_app_or in H. destruct H as [H|H].
    + apply in_map_iff in H. destruct H as (l & H & _).
      destruct Hx as [-> | [-> | ->]]; discriminate H.
    + destruct H as [H|H].
      * destruct Hx as [-> | [-> | ->]]; discriminate H.
      * apply Hlines in H. destruct Hx as [-> | [-> | ->]]; discriminate H.
Qed.

Lemma special_line_not_loader x log :
  x = Complete \/ x = ErrorDirectoryNotFound \/ x = ErrorNoScenarios ->
  ~ In x (header ++ map LoaderLine log).
Proof.
  intros Hx H. apply (special_line_not_before x log 0 [] Hx).
  - intros y [].
  - apply in_app_or in H. apply in_or_app. destruct H as [H|H]; [now left|].
    right. apply in_or_app. now left.
Qed.

End MainLines.

(** X20. What [main] prints tells how it ended: the closing banner is
    printed exactly when the status is 0, the directory error exactly
    when the directory is missing, the no-scenarios error exactly when a
    directory was read and nothing was loaded; and [main] with its output
    does to the file what [main] does. *)
Theorem main_prints_how_it_ended dir out :
  fst (main_out dir out) = main dir out
  /\ (In Complete (snd (main_out dir out))
      <-> snd (main dir out) = Exited 0)
  /\ (In ErrorDirectoryNotFound (snd (main_out dir out)) <-> dir = None)
  /\ (In ErrorNoScenarios (snd (main_out dir out))
      <-> exists files,
            dir = Some files /\ fst (load_knowledge_files files) = []).
Proof.
  rewrite main_out_cases.
  destruct dir as [files|].
  - rewrite main_cases. cbv zeta.
    pose proof (builder_lines out (fst (load_knowledge_files files)))
      as Hb.
    destruct (fst (load_knowledge_files files)) as [|s rest] eqn:El.
    + cbn [fst snd]. split; [reflexivity|].
      rewrite app_assoc. split; [|split].
      * split; [|discriminate]. intros H.
        apply in_app_or in H. destruct H as [H|[H|[]]]; [|discriminate H].
        exfalso. revert H. apply special_line_not_loader. auto.
      * split; [|discriminate]. intros H.
        apply in_app_or in H. destruct H as [H|[H|[]]]; [|discriminate H].
        exfalso. revert H. apply special_line_not_loader. auto.
      * split; [eauto|]. intros _. apply in_or_app. right. now left.
    + destruct (create_database out (s :: rest)) as [f [[]|e]];
        cbn [fst snd]; (split; [reflexivity|]).
      * rewrite !app_assoc. rewrite <- !app_assoc.
        assert (Hsplit : forall x,
                   In x (header
                         ++ map LoaderLine (snd (load_knowledge_files files))
                         ++ [TotalLoaded (List.length (s :: rest))]
                         ++ snd (create_database_out out (s :: rest))
                         ++ [Verifying;
                             Contains (List.length (s :: rest));
                             Model "keyword-only"; Version "1.0-basic"]
                         ++ footer)
                   <-> In x (header
                             ++ map LoaderLine
                                    (snd (load_knowledge_files files))
                             ++ [TotalLoaded (List.length (s :: rest))]
                             ++ snd (create_database_out out (s :: rest)))
                       \/ In x ([Verifying;
                                 Contains (List.length (s :: rest));
                                 Model "keyword-only"; Version "1.0-basic"]
                                ++ footer)).
        { intros x. rewrite !in_app_iff. tauto. }
        split; [|split].
        -- split; [reflexivity|]. intros _. apply Hsplit. right.
           simpl. tauto.
        -- rewrite Hsplit. split; [|discriminate].
           intros [H|H].
           ++ exfalso. revert H. apply special_line_not_before; auto.
           ++ simpl in H.
              repeat (destruct H as [H|H]; [discriminate H|]). destruct H.
        -- rewrite Hsplit. split.
           ++ intros [H|H].
              ** exfalso. revert H. apply special_line_not_before; auto.
              ** simpl in H.
                 repeat (destruct H as [H|H]; [discriminate H|]).
                 destruct H.
           ++ intros (files' & Hf & Hl). inversion Hf; subst files'.
              rewrite El in Hl. discriminate Hl.
      * split; [|split].
        -- split; [|discriminate]. intros H. exfalso. revert H.
           apply special_line_not_before; auto.
        -- split; [|discriminate]. intros H. exfalso. revert H.
           apply special_line_not_before; auto.
        -- split.
           ++ intros H. exfalso. revert H.
              apply special_line_not_before; auto.
           ++ intros (files' & Hf & Hl). inversion Hf; subst files'.
              rewrite El in Hl. discriminate Hl.
  - cbn [fst snd]. split; [reflexivity|]. split; [|split].
    + split; [|discriminate]. intros H.
      apply in_app_or in H. destruct H as [H|[H|[]]]; [|discriminate H].
      exfalso. apply (special_line_not_loader Complete []); [auto|].
      apply in_or_app. now left.
    + split; [reflexivity|]. intros _. apply in_or_app. right. now left.
    + split.
      * intros H. exfalso.
        apply in_app_or in H. destruct H as [H|[H|[]]]; [|discriminate H].
        apply (special_line_not_loader ErrorNoScenarios []); [auto|].
        apply in_or_app. now left.
      * intros (files & Hf & _). discriminate Hf.
Qed.

Lemma main_prints_how_it_ended_witness :
  In ErrorDirectoryNotFound (snd (main_out None None))
  /\ ~ In Complete
         (snd (main_out (Some [mk_file "bad.json" (LoadError OSError)])
                        None)).
Proof.
  split.
  - destruct (main_prints_how_it_ended None None) as (_ & _ & H & _).
    apply H. reflexivity.
  - destruct (main_prints_how_it_ended
                (Some [mk_file "bad.json" (LoadError OSError)]) None)
      as (_ & H & _).
    intros Hin. apply H in Hin. vm_compute in Hin. discriminate Hin.
Defined.

Section EscapingExceptions.

Lemma py_getitem_raise s k e :
  py_getitem s k = Raise e -> e = TypeError \/ e = KeyError k.
Proof.
  unfold py_getitem. destruct s; intros H; try (inversion H; auto; fail).
  destruct (dict_get k d); inversion H; auto.
Qed.

Lemma all_str_raise l e : all_str l = Raise e -> e = TypeError.
Proof.
  induction l as [|x l IH]; simpl; [discriminate|].
  destruct x; try (intros H; inversion H; reflexivity).
  destruct (all_str l) as [ss|e']; simpl; [discriminate|].
  intros H. inversion H; subst. now apply IH.
Qed.

Lemma py_join_raise sep x e : py_join sep x = Raise e -> e = TypeError.
Proof.
  unfold py_join, bind.
  destruct (py_iter x) as [items|e'] eqn:Ei.
  - destruct (all_str items) as [ss|e''] eqn:Ea; [discriminate|].
    intros H. inversion H; subst. exact (all_str_raise _ _ Ea).
  - intros H. inversion H; subst.
    destruct x; simpl in Ei; inversion Ei; reflexivity.
Qed.

Lemma adapt_raise v e :
  adapt v = Raise e -> e = OverflowError \/ e = ProgrammingError.
Proof.
  destruct v; simpl; intros H; try discriminate H;
    try (inversion H; auto; fail).
  destruct ((int64_min <=? z)%Z && (z <=? int64_max)%Z);
    inversion H; auto.
Qed.

(** What the loop body can raise before the statement runs. *)
Lemma row_for_raise s n e :
  row_for s n = Raise e ->
  e = TypeError \/ e = OverflowError \/ e = ProgrammingError
  \/ exists k, In k required_keys /\ e = KeyError k
               /\ py_getitem s k = Raise (KeyError k).
Proof.
  unfold row_for, bind, required_keys.
  destruct (py_getitem s "id") as [v1|e1] eqn:E1.
  2:{ intros H; inversion H; subst.
      destruct (py_getitem_raise _ _ _ E1) as [->| ->]; auto.
      right. right. right. exists "id". simpl. auto. }
  destruct (py_getitem s "category") as [v2|e2] eqn:E2.
  2:{ intros H; inversion H; subst.
      destruct (py_getitem_raise _ _ _ E2) as [->| ->]; auto.
      right. right. right. exists "category". simpl. auto. }
  destruct (py_getitem s "keywords") as [ks|e3] eqn:E3.
  2:{ intros H; inversion H; subst.
      destruct (py_getitem_raise _ _ _ E3) as [->| ->]; auto.
      right. right. right. exists "keywords". simpl. auto 6. }
  destruct (py_join ", " ks) as [kw|e4] eqn:E4.
  2:{ intros H; inversion H; subst. left. exact (py_join_raise _ _ _ E4). }
  destruct (py_getitem s "context") as [v4|e5] eqn:E5.
  2:{ intros H; inversion H; subst.
      destruct (py_getitem_raise _ _ _ E5) as [->| ->]; auto.
      right. right. right. exists "context". simpl. auto 7. }
  destruct (py_getitem s "priority") as [v5|e6] eqn:E6.
  2:{ intros H; inversion H; subst.
      destruct (py_getitem_raise _ _ _ E6) as [->| ->]; auto.
      right. right. right. exists "priority". simpl. auto 8. }
  destruct (adapt v1) as [a1|e7] eqn:E7.
  2:{ intros H; inversion H; subst.
      destruct (adapt_raise _ _ E7) as [->| ->]; auto. }
  destruct (adapt v2) as [a2|e8] eqn:E8.
  2:{ intros H; inversion H; subst.
      destruct (adapt_raise _ _ E8) as [->| ->]; auto. }
  cbn [adapt].
  destruct (adapt v4) as [a4|e9] eqn:E9.
  2:{ intros H; inversion H; subst.
      destruct (adapt_raise _ _ E9) as [->| ->]; auto. }
  destruct (adapt v5) as [a5|e10] eqn:E10.
  2:{ intros H; inversion H; subst.
      destruct (adapt_raise _ _ E10) as [->| ->]; auto. }
  discriminate.
Qed.

Lemma check_row_raise new rows e :
  check_row new rows = Raise e -> exists c, e = IntegrityError c.
Proof.
  unfold check_row, not_null, bind.
  destruct (k_category new); [intros H; inversion H; eauto| | |];
    (destruct (k_keywords new); [intros H; inversion H; eauto| | |]);
    (destruct (k_context new); [intros H; inversion H; eauto| | |]);
    (destruct (k_priority new); [intros H; inversion H; eauto| | |]);
    intros H;
    destruct (unique_id_cases (k_id new) rows) as [[E _]|[E _]];
    rewrite E in H; inversion H; eauto.
Qed.

(** An exception of the loop comes from one of its scenarios. *)
Lemma insert_scenarios_raise_source scenarios :
  forall c rows c' e,
    working c = loop_db rows ->
    insert_scenarios scenarios c = (c', Raise e) ->
    exists s n,
      In s scenarios
      /\ (row_for s n = Raise e \/ exists c0, e = IntegrityError c0).
Proof.
  induction scenarios as [|s rest IH]; intros c rows c' e Hw H;
    [discriminate H|].
  cbn [insert_scenarios] in H. unfold bindM at 1 in H.
  destruct (insert_scenario_loop s c rows Hw) as (c1 & r1 & E1 & _ & R1).
  rewrite E1 in H. destruct r1 as [[]|e1].
  - destruct R1 as (new & _ & _ & Hw1 & _).
    destruct (IH c1 _ c' e Hw1 H) as (s' & n & Hin & Hs).
    exists s', n. split; [now right|exact Hs].
  - inversion H; subst c1 e1. destruct R1 as [_ [R|(new & _ & Hchk)]].
    + exists s, (next_rowid rows). split; [now left|now left].
    + exists s, 0%Z. split; [now left|].
      right. exact (check_row_raise _ _ _ Hchk).
Qed.

End EscapingExceptions.

(** X21. What goes wrong in the loader stays there: a file whose read
    or parse fails changes nothing in what [main] does to the output file
    or in how it ends, whatever the exception was, and no run of [main]
    ends with a [KeyError] for [category], every loaded scenario having
    been given one. *)
Theorem loader_failures_never_reach_main :
  (forall before name e after out,
      main (Some (before ++ mk_file name (LoadError e) :: after)) out
      = main (Some (before ++ after)) out)
  /\ (forall files s,
         In s (fst (load_knowledge_files files)) ->
         exists c, py_getitem s "category" = Ok c)
  /\ (forall dir out f e,
         main dir out = (f, Uncaught e) -> e <> KeyError "category").
Proof.
  assert (Hcat : forall files s,
             In s (fst (load_knowledge_files files)) ->
             exists c, py_getitem s "category" = Ok c).
  { intros files s Hin. rewrite load_knowledge_files_scenarios in Hin.
    apply in_flat_map in Hin. destruct Hin as (file & _ & Hfile).
    destruct (file_scenarios_category file s Hfile) as (d & _ & Hc).
    eauto. }
  split; [|split; [exact Hcat|]].
  - intros before name e after out. rewrite !main_cases.
    rewrite !load_knowledge_files_scenarios, !flat_map_app.
    cbn [flat_map]. now rewrite file_scenarios_load_error.
  - intros dir out f e H He. subst e.
    destruct dir as [files|]; [|discriminate H].
    rewrite main_cases in H.
    destruct (fst (load_knowledge_files files)) as [|s rest] eqn:El;
      [discriminate H|].
    destruct (create_database out (s :: rest)) as [f' [[]|e']] eqn:Ec;
      [discriminate H|].
    inversion H; subst f' e'.
    set (c0 := mk_connection schema_db schema_db false).
    destruct (insert_scenarios (s :: rest) c0) as [c r] eqn:E.
    pose proof (create_database_by_loop out (s :: rest) c r E) as Hl.
    destruct r as [[]|e'].
    { destruct Hl as (rows & _ & Hl). rewrite Hl in Ec. discriminate Ec. }
    rewrite Hl in Ec. inversion Ec; subst f e'.
    destruct (insert_scenarios_raise_source (s :: rest) c0 [] c _ eq_refl E)
      as (s0 & n & Hin & Hs).
    destruct Hs as [Hs|[c1 Hs]]; [|discriminate Hs].
    destruct (row_for_raise s0 n _ Hs)
      as [Hk|[Hk|[Hk|(k & _ & Hk & Hget)]]]; try discriminate Hk.
    inversion Hk; subst k.
    rewrite <- El in Hin. destruct (Hcat files s0 Hin) as [c' Hc'].
    congruence.
Qed.

Lemma loader_failures_never_reach_main_witness :
  let good := mk_file "fire.json"
                (Parsed (PDict [("scenarios",
                                 PList [PDict [("id", PStr "a")]])])) in
  main (Some [mk_file "unreadable.json" (LoadError OSError); good]) None
  = main (Some [good]) None
  /\ snd (main (Some [good]) None) <> Uncaught (KeyError "category").
Proof.
  intros good.
  destruct loader_failures_never_reach_main as (H1 & _ & H3).
  split.
  - exact (H1 [] "unreadable.json" OSError [good] None).
  - intros Heq.
    refine (H3 (Some [good]) None (fst (main (Some [good]) None)) _ _
               eq_refl).
    rewrite <- Heq. apply surjective_pairing.
Defined.

(** X22. Row inserts keep the mirror consistent: with the insert trigger
    in place, after any sequence of row inserts into a consistent
    database the index holds exactly one entry per row of [knowledge],
    under its rowid and with its id, category, keywords and context, so
    the two agree on count; the build performs inserts only, and every
    state it goes through and every file it leaves is consistent. *)
Theorem inserts_keep_mirror_synchronized :
  (forall d ops,
      has_trigger knowledge_ai d = true -> fts_consistent d ->
      forallb is_insert ops = true ->
      fts_consistent (run_ops ops d))
  /\ (forall d,
         fts_consistent d ->
         row_count d = fts_count d
         /\ forall rows row,
             knowledge d = Some rows -> In row rows ->
             exists entries e,
               knowledge_fts d = Some entries /\ In e entries
               /\ f_rowid e = k_rowid row /\ f_id e = k_id row
               /\ f_category e = k_category row
               /\ f_keywords e = k_keywords row
               /\ f_context e = k_context row)
  /\ (has_trigger knowledge_ai schema_db = true /\ fts_consistent schema_db)
  /\ (forall scenarios c r,
         insert_scenarios scenarios (mk_connection schema_db schema_db false)
         = (c, r) ->
         fts_consistent (working c) /\ fts_consistent (committed c))
  /\ (forall out scenarios f r,
         create_database out scenarios = (Some f, r) -> fts_consistent f).
Proof.
  split; [intros d ops; apply inserts_synchronized|].
  split; [|split; [|split]].
  - intros d (rows & Hk & Hf). unfold row_count, fts_count.
    rewrite Hk, Hf, length_map. split; [reflexivity|].
    intros rows' row Hr Hin. inversion Hr; subst rows'.
    exists (map mirror rows), (mirror row).
    split; [reflexivity|]. split; [now apply in_map|].
    repeat split; reflexivity.
  - split; [reflexivity|apply (fts_consistent_loop_db [])].
  - intros scenarios c r H.
    destruct (insert_scenarios_loop scenarios
                (mk_connection schema_db schema_db false) []
                eq_refl ids_unique_nil)
      as (c' & r' & E & C & R).
    rewrite H in E. inversion E; subst c' r'. split.
    + destruct r as [[]|e].
      * destruct R as (news & Hw & _). rewrite Hw.
        apply fts_consistent_loop_db.
      * destruct R as (rows' & Hw). rewrite Hw.
        apply fts_consistent_loop_db.
    + rewrite C. apply (fts_consistent_loop_db []).
  - intros out scenarios f r H.
    destruct (create_database_cases out scenarios)
      as [[e He]|(rows & Hr & _)]; rewrite H in *.
    + inversion He. apply (fts_consistent_loop_db []).
    + inversion Hr. apply fts_consistent_built_db.
Qed.

Lemma inserts_keep_mirror_synchronized_witness :
  let ops :=
    [OpInsert (SText "fire-01") (SText "fire") (SText "smoke, flame")
              (SText "...") (SText "high");
     OpInsert (SText "fire-01") (SText "fire") (SText "dup")
              (SText "...") (SText "high");
     OpInsert (SText "w-01") SNull (SText "k") (SText "c") (SText "low");
     OpInsert (SText "w-02") (SText "water") (SText "k") (SText "c")
              (SText "low")] in
  fts_consistent (run_ops ops schema_db)
  /\ option_map (map f_id) (knowledge_fts (run_ops ops schema_db))
     = Some [SText "fire-01"; SText "w-02"].
Proof.
  intros ops.
  destruct inserts_keep_mirror_synchronized as (H & _ & (Ht & Hc) & _).
  split.
  - apply (H schema_db ops Ht Hc). reflexivity.
  - vm_compute. reflexivity.
Defined.
